(** * job_searcher.py: the reconciliation driver of the daily job search

    A shallow embedding of [src/daily_job_search_automation/job_searcher.py].
    The program reads its configuration from environment variables, fetches
    the list of already sent links from a repository file, runs two fixed
    search queries, mails the results that are new and writes the enlarged
    list back.

    All network traffic is modelled by a [World] (what each remote party
    answers) and a trace of [Event]s (what the program asked), so that
    statements such as "the store is never written" are statements about the
    trace of [run].

    Conventions of the embedding:
    - an environment variable is an [option string]; Python truthiness on
      it is [truthy];
    - a function that can raise returns, next to its trace, an exception
      or a value ([M]); [try ... except Exception] is [try_except];
    - the body of a 200 answer of the contents API is a JSON object, seen
      through its keys [sha] and [content]; an item of a search answer is
      a JSON object whose [link], [title] and [snippet] are strings when
      present;
    - the decoded content of the stored file is any JSON value, so that
      lists holding other things than strings are covered;
    - the clock ([datetime.now], [datetime.utcnow]) is part of the world;
    - [print] is not modelled. *)

From Stdlib Require Import ZArith.
From stdpp Require Import base decidable option list sorting gmap strings pretty.

Local Open Scope string_scope.
Local Open Scope Z_scope.
Local Open Scope list_scope.

#[local] Set Warnings "-clear-no-such-hyp".

(** ** Python values used by the program *)

(** [not x] on a value that is [None] or a [str]. *)
Definition truthy (o : option string) : bool :=
  match o with
  | None => false
  | Some s => negb (String.eqb s "")
  end.

(** [x or d] for an optional string. *)
Definition py_or (o : option string) (d : string) : string :=
  match o with
  | Some s => if String.eqb s "" then d else s
  | None => d
  end.

(** What an f-string prints for a value that is [None] or a [str]. *)
Definition py_str (o : option string) : string :=
  match o with
  | Some s => s
  | None => "None"
  end.

(** The double quote character, for the literals of the source that
    contain it. *)
Definition dq : string := String (Ascii.ascii_of_nat 34) EmptyString.

#[local] Set Warnings "-register-all".

(** A value as [json.loads] returns it.  Numbers keep their integer part
    only: the program never looks inside one. *)
Inductive json : Type :=
  | JNull
  | JBool (b : bool)
  | JNum (n : Z)
  | JStr (s : string)
  | JArr (l : list json)
  | JObj (fields : list (string * json)).

(** The exceptions that can leave a function of the program. *)
Inductive exn : Type :=
  | RuntimeError (msg : string)
  | HTTPError (status : Z)
  | ConnectionError
  | JSONDecodeError
  | TypeError
  | ValueError
  | SMTPException.

(** ** Configuration (module level globals, lines 34-51) *)

Record Config : Type := {
  GCP_API_KEY : option string;
  CSE_ID : option string;
  GITHUB_REPOSITORY : option string;
  GITHUB_TOKEN : option string;
  FROM_EMAIL : option string;
  TO_EMAIL : option string;
  SMTP_HOST : option string;
  SMTP_PORT : Z;
  SMTP_USER : option string;
  SMTP_PASS : option string;
  SENDGRID_API_KEY : option string;
  MAX_RESULTS_PER_QUERY : Z;
  FILE_PATH : string
}.

Definition QUERIES : list string :=
  [ "(" +:+ dq +:+ "entry level" +:+ dq +:+ " OR " +:+ dq +:+ "junior" +:+ dq
      +:+ ") " +:+ dq +:+ "data analyst" +:+ dq +:+ " (" +:+ dq +:+ "startup"
      +:+ dq +:+ " OR " +:+ dq +:+ "early-stage" +:+ dq +:+ " OR " +:+ dq
      +:+ "seed" +:+ dq +:+ ")";
    "(" +:+ dq +:+ "entry level" +:+ dq +:+ " OR " +:+ dq +:+ "junior" +:+ dq
      +:+ ") " +:+ dq +:+ "software engineer" +:+ dq +:+ " (" +:+ dq
      +:+ "startup" +:+ dq +:+ " OR " +:+ dq +:+ "early-stage" +:+ dq
      +:+ " OR " +:+ dq +:+ "seed" +:+ dq +:+ ")" ].

(** ** The outside world *)

(** One element of the [items] array of a search answer: the three keys
    the program reads with [it.get], each absent ([None]) or a [str]. *)
Record Item : Type := {
  item_link : option string;
  item_title : option string;
  item_snippet : option string
}.

(** What [json.loads(base64.b64decode(content).decode("utf-8"))] does on
    the [content] field of the repository file: the base64 or UTF-8 step
    raises, [json.loads] raises, or a value comes out. *)
Inductive Blob : Type :=
  | NotText
  | BadJson
  | Parsed (v : json).

(** The JSON object of a 200 answer of the contents API, seen through the
    two keys the program reads. *)
Record RepoFile : Type := {
  sha : option string;
  content : Blob
}.

(** The answer to one HTTP request: none at all ([requests] raises), or a
    status code and a body. *)
Inductive Reply (B : Type) : Type :=
  | NoReply
  | Http (status : Z) (body : B).
Arguments NoReply {B}.
Arguments Http {B} status body.

(** Everything the program obtains from outside during one run.  A body
    of [None] is one on which [r.json()] raises. *)
Record World : Type := {
  store_get : Reply (option RepoFile);
  search : string -> Reply (option (list Item));
  sendgrid : Reply unit;
  smtp : option exn;
  store_put : Reply bool;
  now_date : string;
  utcnow_date : string;
  utcnow_iso : string
}.

(** The requests the program makes.  The [content] of a PUT is the list
    whose [json.dumps(..., indent=2)] is sent, base64 encoded. *)
Inductive Event : Type :=
  | GetRepo (url : string) (auth : option string)
  | GetSearch (key cx q : string) (start : Z)
  | PostSendgrid (key : string) (rcpt sender : option string)
      (subject text html : string)
  | SmtpSend (host : string) (port : Z) (user : string)
      (sender rcpt : option string) (subject text html : string)
  | PutRepo (url : string) (auth : option string) (message : string)
      (new_list : list string) (payload_sha : option string).

(** ** Computations: a trace of requests and a result or an exception *)

Definition M (A : Type) : Type := (list Event * (exn + A))%type.

Definition ret {A} (a : A) : M A := ([], inr a).
Definition raise {A} (e : exn) : M A := ([], inl e).
Definition emit (ev : Event) : M unit := ([ev], inr tt).

Definition bind {A B} (m : M A) (f : A -> M B) : M B :=
  match m with
  | (t, inl e) => (t, inl e)
  | (t, inr a) => (t ++ fst (f a), snd (f a))
  end.

(** [try: m  except Exception as e: h e] *)
Definition try_except {A} (m : M A) (h : exn -> M A) : M A :=
  match m with
  | (t, inl e) => (t ++ fst (h e), snd (h e))
  | (t, inr a) => (t, inr a)
  end.

Declare Scope py_scope.
Delimit Scope py_scope with py.
Notation "x <- m ;; k" := (bind m (fun x => k))
  (at level 100, m at next level, right associativity) : py_scope.
Notation "m ;;; k" := (bind m (fun _ => k))
  (at level 100, right associativity) : py_scope.
Local Open Scope py_scope.

Definition trace {A} (m : M A) : list Event := fst m.
Definition result {A} (m : M A) : exn + A := snd m.

(** [requests.get/post/put(..., timeout=30)] *)
Definition request {B} (ev : Event) (r : Reply B) : M (Z * B) :=
  emit ev ;;;
  match r with
  | NoReply => raise ConnectionError
  | Http status body => ret (status, body)
  end.

(** [Response.raise_for_status]: raises on a 4xx or 5xx status only. *)
Definition raise_for_status (status : Z) : M unit :=
  if (400 <=? status) && (status <? 600) then raise (HTTPError status)
  else ret tt.

(** ** Google Custom Search (lines 54-71) *)

Definition google_custom_search (cfg : Config) (w : World)
    (query : string) (start : Z) : M (list Item) :=
  if negb (truthy (GCP_API_KEY cfg)) || negb (truthy (CSE_ID cfg)) then
    raise (RuntimeError "GCP_API_KEY and CSE_ID must be set.")
  else
    resp <- request (GetSearch (py_str (GCP_API_KEY cfg))
                       (py_str (CSE_ID cfg)) query start) (search w query) ;;
    raise_for_status (fst resp) ;;;
    match snd resp with
    | None => raise JSONDecodeError
    | Some items => ret items
    end.

(** ** Repository file helpers (lines 75-101) *)

Definition api_url (cfg : Config) (path : string) : string :=
  "https://api.github.com/repos/" +:+ py_str (GITHUB_REPOSITORY cfg)
    +:+ "/contents/" +:+ path.

Definition headers (cfg : Config) : option string :=
  if truthy (GITHUB_TOKEN cfg)
  then Some ("token " +:+ py_str (GITHUB_TOKEN cfg))
  else None.

Definition get_repo_file (cfg : Config) (w : World) (path : string)
    : M (option RepoFile) :=
  r <- request (GetRepo (api_url cfg path) (headers cfg)) (store_get w) ;;
  if fst r =? 200 then
    match snd r with
    | None => raise JSONDecodeError
    | Some obj => ret (Some obj)
    end
  else if fst r =? 404 then ret None
  else raise_for_status (fst r) ;;; ret None.

Definition create_or_update_repo_file (cfg : Config) (w : World)
    (path : string) (new_list : list string) (message : string)
    (sha : option string) : M unit :=
  let payload_sha := if truthy sha then sha else None in
  r <- request (PutRepo (api_url cfg path) (headers cfg) message new_list
                  payload_sha) (store_put w) ;;
  raise_for_status (fst r) ;;;
  if snd r then ret tt else raise JSONDecodeError.

(** ** Email sending (lines 105-142) *)

Definition send_email_smtp (cfg : Config) (w : World)
    (subject html_body : string) (text_body : option string) : M unit :=
  if negb (truthy (SMTP_HOST cfg)) || negb (truthy (SMTP_USER cfg))
     || negb (truthy (SMTP_PASS cfg)) then
    raise (RuntimeError
             "SMTP_HOST, SMTP_USER, SMTP_PASS must be set for SMTP sending.")
  else
    emit (SmtpSend (py_str (SMTP_HOST cfg)) (SMTP_PORT cfg)
            (py_str (SMTP_USER cfg)) (FROM_EMAIL cfg) (TO_EMAIL cfg)
            subject (py_or text_body "See HTML body") html_body) ;;;
    match smtp w with
    | Some e => raise e
    | None => ret tt
    end.

Definition send_email_sendgrid (cfg : Config) (w : World)
    (subject html_body : string) (text_body : option string) : M unit :=
  if negb (truthy (SENDGRID_API_KEY cfg)) then
    raise (RuntimeError "SENDGRID_API_KEY must be set to use SendGrid.")
  else
    r <- request (PostSendgrid (py_str (SENDGRID_API_KEY cfg)) (TO_EMAIL cfg)
                    (FROM_EMAIL cfg) subject
                    (py_or text_body "See HTML body") html_body)
                 (sendgrid w) ;;
    raise_for_status (fst r) ;;;
    ret tt.

Definition send_email (cfg : Config) (w : World)
    (subject html_body : string) (text_body : option string) : M unit :=
  if truthy (SENDGRID_API_KEY cfg)
  then send_email_sendgrid cfg w subject html_body text_body
  else send_email_smtp cfg w subject html_body text_body.

(** ** Main flow (lines 146-251) *)

Definition load_sent_links (cfg : Config) (w : World) : M (list json) :=
  obj <- get_repo_file cfg w (FILE_PATH cfg) ;;
  match obj with
  | None => ret []
  | Some f =>
      match content f with
      | NotText => raise ValueError
      | BadJson => ret []
      | Parsed (JArr data) => ret data
      | Parsed _ => ret []
      end
  end.

Definition save_sent_links (cfg : Config) (w : World)
    (new_list : list string) (sha : option string) : M unit :=
  let message := "Update sent links at " +:+ utcnow_iso w +:+ "Z" in
  create_or_update_repo_file cfg w (FILE_PATH cfg) new_list message sha.

(** An entry of [found_results]. *)
Record Found : Type := {
  query : string;
  title : option string;
  snippet : option string;
  link : string
}.

Definition render_result (r : Found) : string :=
  "<li><strong>" +:+ py_str (title r) +:+ "</strong><br>"
    +:+ py_str (snippet r) +:+ "<br>"
    +:+ "<a href=" +:+ dq +:+ link r +:+ dq +:+ " target=" +:+ dq
    +:+ "_blank" +:+ dq +:+ ">" +:+ link r
    +:+ "</a><br><small>query: " +:+ query r +:+ "</small></li><br>".

Definition build_email_html (date_str : string) (results : list Found)
    : string :=
  let html := "<h2>Job search results — " +:+ date_str +:+ "</h2>" in
  match results with
  | [] => html +:+ "<p>No new results.</p>"
  | _ => html +:+ "<ol>" +:+ String.concat "" (render_result <$> results)
           +:+ "</ol>"
  end.

(** *** The in-memory set of seen links *)

(** [a <= b] on Python strings.  A [string] holds the UTF-8 bytes of the
    Python [str]; comparing those bytes lexicographically is comparing the
    code points lexicographically. *)
Definition str_le (a b : string) : Prop := String.leb a b = true.

Global Instance str_le_dec a b : Decision (str_le a b).
Proof. unfold str_le. apply _. Defined.

(** A Python [set] of values taken from a decoded JSON array and of link
    strings.  The program only ever asks whether a [str] is a member, adds
    a [str] and sorts, so the members that are not [str] ([None], booleans,
    numbers) are remembered by one flag. *)
Record PySet : Type := {
  strs : gset string;
  foreign : bool
}.

Definition hashable (v : json) : bool :=
  match v with
  | JArr _ | JObj _ => false
  | _ => true
  end.

Definition as_str (v : json) : option string :=
  match v with
  | JStr s => Some s
  | _ => None
  end.

(** [set(existing_links)]: a list or a dict among the elements is
    unhashable. *)
Definition py_set (existing_links : list json) : M PySet :=
  if forallb hashable existing_links then
    ret {| strs := list_to_set (omap as_str existing_links);
           foreign := negb (forallb (fun v => bool_decide (is_Some (as_str v)))
                              existing_links) |}
  else raise TypeError.

Definition set_add (x : string) (s : PySet) : PySet :=
  {| strs := {[ x ]} ∪ strs s; foreign := foreign s |}.

(** [sorted(list(sent_set))].  The program sorts only after it has added a
    link, so a member that is not a [str] is always compared with a [str],
    which raises. *)
Definition py_sorted (s : PySet) : M (list string) :=
  if foreign s then raise TypeError
  else ret (merge_sort str_le (elements (strs s))).

(** *** The loop over the queries (lines 200-229) *)

Record LoopState : Type := {
  sent_set : PySet;
  found_results : list Found;
  added_links : list string
}.

(** The body of [for it in items]. *)
Definition visit (q : string) (st : LoopState) (it : Item) : LoopState :=
  if negb (truthy (item_link it)) then st
  else
    let l := py_str (item_link it) in
    if decide (l ∈ strs (sent_set st)) then st
    else
      {| sent_set := set_add l (sent_set st);
         found_results :=
           found_results st ++
             [ {| query := q; title := item_title it;
                  snippet := item_snippet it; link := l |} ];
         added_links := added_links st ++ [l] |}.

(** The body of [for q in QUERIES]. *)
Fixpoint search_all (cfg : Config) (w : World) (queries : list string)
    (st : LoopState) : M LoopState :=
  match queries with
  | [] => ret st
  | q :: rest =>
      items <- try_except (google_custom_search cfg w q 1)
                 (fun _ => ret []) ;;
      search_all cfg w rest (foldl (visit q) st items)
  end.

(** Lines 188-200: the file, its [sha], the decoded list and the set. *)
Definition existing_links_of (remote_obj : option RepoFile) : list json :=
  match remote_obj with
  | None => []
  | Some f =>
      match content f with
      | Parsed (JArr l) => l
      | _ => []
      end
  end.

Definition remote_sha_of (remote_obj : option RepoFile) : option string :=
  match remote_obj with
  | None => None
  | Some f => sha f
  end.

(** Lines 231-251: mail the new results, then write the list back. *)
Definition notify_and_save (cfg : Config) (w : World) (st : LoopState)
    (remote_sha : option string) : M unit :=
  match found_results st with
  | [] => ret tt
  | _ =>
      let n := pretty (length (found_results st)) in
      let html := build_email_html (now_date w) (found_results st) in
      let subject :=
        "Daily job search — " +:+ utcnow_date w +:+ " — " +:+ n +:+ " new" in
      send_email cfg w subject html (Some (n +:+ " new results; see HTML.")) ;;;
      new_list <- py_sorted (sent_set st) ;;
      save_sent_links cfg w new_list remote_sha
  end.

(** [run], over any list of queries. *)
Definition run_on (queries : list string) (cfg : Config) (w : World)
    : M unit :=
  if negb (truthy (GCP_API_KEY cfg)) || negb (truthy (CSE_ID cfg)) then
    raise (RuntimeError "GCP_API_KEY and CSE_ID required.")
  else if negb (truthy (FROM_EMAIL cfg)) || negb (truthy (TO_EMAIL cfg)) then
    raise (RuntimeError "FROM_EMAIL and TO_EMAIL must be set.")
  else
    remote_obj <- get_repo_file cfg w (FILE_PATH cfg) ;;
    sent <- py_set (existing_links_of remote_obj) ;;
    st <- search_all cfg w queries
            {| sent_set := sent; found_results := []; added_links := [] |} ;;
    notify_and_save cfg w st (remote_sha_of remote_obj).

Definition run : Config -> World -> M unit := run_on QUERIES.

(** * Views of a run

    The definitions below name parts of [run] and of its trace, and the
    changes of world, that the statements speak about. *)

(** What the loop sees of a query: its items, or nothing when the call
    raises. *)
Definition items_for (cfg : Config) (w : World) (q : string) : list Item :=
  match result (google_custom_search cfg w q 1) with
  | inr items => items
  | inl _ => []
  end.

(** The requests one search call makes. *)
Definition search_trace (cfg : Config) (w : World) (q : string)
    : list Event :=
  trace (google_custom_search cfg w q 1).

(** The items in encounter order, each with the query that returned it. *)
Definition stream (cfg : Config) (w : World) (queries : list string)
    : list (string * Item) :=
  flat_map (fun q => pair q <$> items_for cfg w q) queries.

(** The loop over the queries and their items, as one fold over the
    stream. *)
Definition visit_pair (st : LoopState) (p : string * Item) : LoopState :=
  visit p.1 st p.2.

Definition scan (st : LoopState) (ps : list (string * Item)) : LoopState :=
  foldl visit_pair st ps.

(** The state before the loop (lines 200-202). *)
Definition start (s : PySet) : LoopState :=
  {| sent_set := s; found_results := []; added_links := [] |}.

(** The dict appended to [found_results] for item [it] of query [q]. *)
Definition entry (q : string) (it : Item) : Found :=
  {| query := q; title := item_title it; snippet := item_snippet it;
     link := py_str (item_link it) |}.

(** Relative to the set [S0] the loop started from: the in-memory set is
    [S0] plus the added links, the new results are the added links one for
    one, and no link was added twice or was in [S0]. *)
Record Inv (S0 : gset string) (f0 : bool) (st : LoopState) : Prop := {
  inv_strs : strs (sent_set st) = S0 ∪ list_to_set (added_links st);
  inv_foreign : foreign (sent_set st) = f0;
  inv_links : link <$> found_results st = added_links st;
  inv_nodup : NoDup (added_links st);
  inv_fresh : forall l, l ∈ added_links st -> (l ∉ S0) /\ l <> ""
}.

(** The item passes [if not link: continue]. *)
Definition has_link (p : string * Item) : bool := truthy (item_link p.2).

Definition put_of (ev : Event) : option (list string * option string) :=
  match ev with
  | PutRepo _ _ _ new_list payload_sha => Some (new_list, payload_sha)
  | _ => None
  end.

(** The writes to the store: the list written and the [sha] it was sent
    with. *)
Definition puts (t : list Event) : list (list string * option string) :=
  omap put_of t.

Definition mail_of (ev : Event) : option (string * string) :=
  match ev with
  | PostSendgrid _ _ _ subject _ html => Some (subject, html)
  | SmtpSend _ _ _ _ _ subject _ html => Some (subject, html)
  | _ => None
  end.

(** The notifications handed to a transport: subject and HTML body. *)
Definition mails (t : list Event) : list (string * string) :=
  omap mail_of t.

(** The checks of lines 182-185. *)
Definition preflight (cfg : Config) : bool :=
  truthy (GCP_API_KEY cfg) && truthy (CSE_ID cfg)
  && truthy (FROM_EMAIL cfg) && truthy (TO_EMAIL cfg).

(** Lines 188-200 taken together: the set of seen links and the [sha]. *)
Definition load_state (cfg : Config) (w : World)
    : M (PySet * option string) :=
  remote_obj <- get_repo_file cfg w (FILE_PATH cfg) ;;
  sent <- py_set (existing_links_of remote_obj) ;;
  ret (sent, remote_sha_of remote_obj).

(** The request of the fetch, and the request of the search for [q]. *)
Definition get_event (cfg : Config) : Event :=
  GetRepo (api_url cfg (FILE_PATH cfg)) (headers cfg).

Definition search_event (cfg : Config) (q : string) : Event :=
  GetSearch (py_str (GCP_API_KEY cfg)) (py_str (CSE_ID cfg)) q 1.

(** The state in which the loop ends when it starts from [s]. *)
Definition final (queries : list string) (cfg : Config) (w : World)
    (s : PySet) : LoopState :=
  scan (start s) (stream cfg w queries).

(** The subject and body [run] builds, and the [send_email] call of
    line 236. *)
Definition mail_subject (w : World) (st : LoopState) : string :=
  "Daily job search — " +:+ utcnow_date w +:+ " — "
    +:+ pretty (length (found_results st)) +:+ " new".

Definition mail_html (w : World) (st : LoopState) : string :=
  build_email_html (now_date w) (found_results st).

Definition send_new (cfg : Config) (w : World) (st : LoopState) : M unit :=
  send_email cfg w (mail_subject w st) (mail_html w st)
    (Some (pretty (length (found_results st)) +:+ " new results; see HTML.")).

(** The [sha] that [create_or_update_repo_file] puts in the payload. *)
Definition payload_sha_of (remote_sha : option string) : option string :=
  if truthy remote_sha then remote_sha else None.

(** [sorted(list(S))] for a set of strings. *)
Definition listing (S : gset string) : list string :=
  merge_sort str_le (elements S).

(** The world [w] with other search answers. *)
Definition with_search (f : string -> Reply (option (list Item)))
    (w : World) : World :=
  {| store_get := store_get w; search := f; sendgrid := sendgrid w;
     smtp := smtp w; store_put := store_put w; now_date := now_date w;
     utcnow_date := utcnow_date w; utcnow_iso := utcnow_iso w |}.

(** The world in which query [q] is answered by an empty result page. *)
Definition answer_empty (q : string) (w : World) : World :=
  with_search
    (fun q' => if String.eqb q' q then Http 200 (Some []) else search w q') w.

(** The transport that [send_email] selects has the settings it checks
    for: the SendGrid key, or else the three SMTP settings. *)
Definition transport_ready (cfg : Config) : bool :=
  truthy (SENDGRID_API_KEY cfg)
  || (truthy (SMTP_HOST cfg) && truthy (SMTP_USER cfg)
      && truthy (SMTP_PASS cfg)).

(** Every value required on the selected path is present: the search
    credentials, both addresses and the selected transport's settings. *)
Definition config_complete (cfg : Config) : bool :=
  preflight cfg && transport_ready cfg.

(** The exception of line 107. *)
Definition smtp_unset : exn :=
  RuntimeError "SMTP_HOST, SMTP_USER, SMTP_PASS must be set for SMTP sending.".

(** The world [w] with another answer of the store. *)
Definition with_store (r : Reply (option RepoFile)) (w : World) : World :=
  {| store_get := r; search := search w; sendgrid := sendgrid w;
     smtp := smtp w; store_put := store_put w; now_date := now_date w;
     utcnow_date := utcnow_date w; utcnow_iso := utcnow_iso w |}.

(** The content is text, but [json.loads] raises on it or returns
    something that is not a list. *)
Definition malformed_or_non_array (b : Blob) : bool :=
  match b with
  | NotText => false
  | BadJson => true
  | Parsed (JArr _) => false
  | Parsed _ => true
  end.

(** The world in which the items without a link are taken out of every
    search answer. *)
Definition drop_linkless (w : World) : World :=
  with_search
    (fun q =>
       match search w q with
       | Http status (Some items) =>
           Http status
             (Some (filter (fun it => truthy (item_link it) = true) items))
       | r => r
       end) w.

(** * Example configurations and worlds *)

Definition job1 : string := "https://a.com/job1".
Definition job2 : string := "https://a.com/job2".

Definition query1 : string := default "" (QUERIES !! 0%nat).
Definition query2 : string := default "" (QUERIES !! 1%nat).

Definition item (l : string) (t s : option string) : Item :=
  {| item_link := Some l; item_title := t; item_snippet := s |}.

Definition item_job2 : Item := item job2 (Some "X") (Some "Y").

(** All required values set, SendGrid selected. *)
Definition cfg_sendgrid : Config :=
  {| GCP_API_KEY := Some "key"; CSE_ID := Some "cx";
     GITHUB_REPOSITORY := Some "owner/repo"; GITHUB_TOKEN := Some "tok";
     FROM_EMAIL := Some "from@example.org"; TO_EMAIL := Some "to@example.org";
     SMTP_HOST := None; SMTP_PORT := 587; SMTP_USER := None;
     SMTP_PASS := None; SENDGRID_API_KEY := Some "sg";
     MAX_RESULTS_PER_QUERY := 10; FILE_PATH := "sent_links.json" |}.

(** The same without any transport credential: SMTP is selected and its
    settings are missing. *)
Definition cfg_no_transport : Config :=
  {| GCP_API_KEY := Some "key"; CSE_ID := Some "cx";
     GITHUB_REPOSITORY := Some "owner/repo"; GITHUB_TOKEN := Some "tok";
     FROM_EMAIL := Some "from@example.org"; TO_EMAIL := Some "to@example.org";
     SMTP_HOST := None; SMTP_PORT := 587; SMTP_USER := None;
     SMTP_PASS := None; SENDGRID_API_KEY := None;
     MAX_RESULTS_PER_QUERY := 10; FILE_PATH := "sent_links.json" |}.

(** The store holds the JSON array of [links] under [version]. *)
Definition stored (links : list string) (version : string)
    : Reply (option RepoFile) :=
  Http 200 (Some {| sha := Some version;
                    content := Parsed (JArr (JStr <$> links)) |}).

(** A world from the answers of the store, of the two queries and of
    SendGrid. *)
Definition world_of (get : Reply (option RepoFile))
    (answer1 answer2 : Reply (option (list Item))) (sg : Reply unit)
    : World :=
  {| store_get := get;
     search := fun q => if String.eqb q query1 then answer1 else answer2;
     sendgrid := sg; smtp := None; store_put := Http 200 true;
     now_date := "2024-05-01"; utcnow_date := "2024-05-01";
     utcnow_iso := "2024-05-01T06:00:00" |}.

(** The end-to-end scenario of the specification: [job1] is stored with
    version [v1], the first query returns [job1] and [job2], the second
    returns [job2] again. *)
Definition world_scenario : World :=
  world_of (stored [job1] "v1")
    (Http 200 (Some [item job1 None None; item_job2]))
    (Http 200 (Some [item job2 None None]))
    (Http 202 tt).

(** The set built from a stored list of strings. *)
Definition seen (links : list string) : PySet :=
  {| strs := list_to_set links; foreign := false |}.

(** The scenario with a transport that answers 500. *)
Definition world_send_fails : World :=
  world_of (stored [job1] "v1")
    (Http 200 (Some [item job1 None None; item_job2]))
    (Http 200 (Some [item job2 None None]))
    (Http 500 tt).

(** Both links are stored already; the answers also hold an item without
    a link. *)
Definition world_nothing_new : World :=
  world_of (stored [job1; job2] "v2")
    (Http 200 (Some [item job1 None None; item_job2]))
    (Http 200 (Some [ {| item_link := None; item_title := Some "T";
                         item_snippet := None |};
                      item job2 None None]))
    (Http 202 tt).

(** The file does not exist yet; the first query returns [job2]. *)
Definition world_absent : World :=
  world_of (Http 404 None) (Http 200 (Some [item_job2])) (Http 200 (Some []))
    (Http 202 tt).

(** The store answers 503. *)
Definition world_store_down : World :=
  world_of (Http 503 None) (Http 200 (Some [item_job2])) (Http 200 (Some []))
    (Http 202 tt).

(** The first query gets no answer, the second returns [job2]. *)
Definition world_query_fails : World :=
  world_of (stored [job1] "v1") NoReply (Http 200 (Some [item_job2]))
    (Http 202 tt).

(** The search engine id is missing. *)
Definition cfg_no_engine : Config :=
  {| GCP_API_KEY := Some "key"; CSE_ID := None;
     GITHUB_REPOSITORY := Some "owner/repo"; GITHUB_TOKEN := Some "tok";
     FROM_EMAIL := Some "from@example.org"; TO_EMAIL := Some "to@example.org";
     SMTP_HOST := None; SMTP_PORT := 587; SMTP_USER := None;
     SMTP_PASS := None; SENDGRID_API_KEY := Some "sg";
     MAX_RESULTS_PER_QUERY := 10; FILE_PATH := "sent_links.json" |}.

(** The file holds text that is not JSON; the search finds [job2]. *)
Definition world_bad_blob : World :=
  world_of (Http 200 (Some {| sha := Some "v7"; content := BadJson |}))
    (Http 200 (Some [item_job2])) (Http 200 (Some [])) (Http 202 tt).

(** An item without a link. *)
Definition item_no_link : Item :=
  {| item_link := None; item_title := Some "T"; item_snippet := Some "S" |}.

(** * Further views and worlds *)


(** The search requests of a trace: the query and the [start] sent. *)
Definition search_of (ev : Event) : option (string * Z) :=
  match ev with
  | GetSearch _ _ q start => Some (q, start)
  | _ => None
  end.

Definition search_requests (t : list Event) : list (string * Z) :=
  omap search_of t.

(** The [Authorization] header of the requests to the repository. *)
Definition repo_auth_of (ev : Event) : option (string * option string) :=
  match ev with
  | GetRepo url auth => Some (url, auth)
  | PutRepo url auth _ _ _ => Some (url, auth)
  | _ => None
  end.

Definition repo_requests (t : list Event) : list (string * option string) :=
  omap repo_auth_of t.

(** [x] is a substring of [s]. *)
Definition occurs (x s : string) : Prop :=
  exists pre post, s = pre +:+ x +:+ post.

(** The statuses on which [raise_for_status] raises. *)
Definition error_status (status : Z) : bool :=
  (400 <=? status) && (status <? 600).

(** The entry made from a pair of the stream. *)
Definition entry_of (p : string * Item) : Found := entry p.1 p.2.

(** The world [w] with another answer to the PUT. *)
Definition with_put (r : Reply bool) (w : World) : World :=
  {| store_get := store_get w; search := search w; sendgrid := sendgrid w;
     smtp := smtp w; store_put := r; now_date := now_date w;
     utcnow_date := utcnow_date w; utcnow_iso := utcnow_iso w |}.

(** SendGrid and SMTP are both configured. *)
Definition cfg_both : Config :=
  {| GCP_API_KEY := Some "key"; CSE_ID := Some "cx";
     GITHUB_REPOSITORY := Some "owner/repo"; GITHUB_TOKEN := Some "tok";
     FROM_EMAIL := Some "from@example.org"; TO_EMAIL := Some "to@example.org";
     SMTP_HOST := Some "smtp.example.org"; SMTP_PORT := 587;
     SMTP_USER := Some "user"; SMTP_PASS := Some "pass";
     SENDGRID_API_KEY := Some "sg";
     MAX_RESULTS_PER_QUERY := 10; FILE_PATH := "sent_links.json" |}.


(** Neither the repository nor its token is set. *)
Definition cfg_no_github : Config :=
  {| GCP_API_KEY := Some "key"; CSE_ID := Some "cx";
     GITHUB_REPOSITORY := None; GITHUB_TOKEN := None;
     FROM_EMAIL := Some "from@example.org"; TO_EMAIL := Some "to@example.org";
     SMTP_HOST := None; SMTP_PORT := 587; SMTP_USER := None;
     SMTP_PASS := None; SENDGRID_API_KEY := Some "sg";
     MAX_RESULTS_PER_QUERY := 10; FILE_PATH := "sent_links.json" |}.

(** The scenario in which the store rejects the write with 409. *)
Definition world_put_conflict : World :=
  with_put (Http 409 true) world_scenario.

(** The scenario one run later: the store holds what the run wrote. *)
Definition world_second_run : World :=
  world_of (stored [job1; job2] "v2")
    (Http 200 (Some [item job1 None None; item_job2]))
    (Http 200 (Some [item job2 None None]))
    (Http 202 tt).

(** No query gets a usable answer. *)
Definition world_all_fail : World :=
  world_of (stored [job1] "v1") NoReply (Http 500 None) (Http 202 tt).

(** The stored array holds a number next to a link. *)
Definition world_number_stored : World :=
  world_of
    (Http 200 (Some {| sha := Some "v1";
                       content := Parsed (JArr [JStr job1; JNum 7]) |}))
    (Http 200 (Some [item_job2])) (Http 200 (Some [])) (Http 202 tt).

(** The stored array holds an array. *)
Definition world_array_stored : World :=
  world_of
    (Http 200 (Some {| sha := Some "v1";
                       content := Parsed (JArr [JArr []]) |}))
    (Http 200 (Some [item_job2])) (Http 200 (Some [])) (Http 202 tt).

(** The store answers 304 to the fetch; the first query returns [job2]. *)
Definition world_not_modified : World :=
  world_of (Http 304 None) (Http 200 (Some [item_job2])) (Http 200 (Some []))
    (Http 202 tt).

(** The store does not answer. *)
Definition world_store_silent : World :=
  world_of NoReply (Http 200 (Some [item_job2])) (Http 200 (Some []))
    (Http 202 tt).

(** * Properties *)

(** ** The order on strings *)

Lemma ascii_compare_refl c : Ascii.compare c c = Eq.
Proof. unfold Ascii.compare. apply N.compare_refl. Qed.

Lemma string_compare_le_trans a : forall b c,
  String.compare a b <> Gt -> String.compare b c <> Gt ->
  String.compare a c <> Gt.
Proof.
  induction a as [|x a IH]; intros [|y b] [|z c]; simpl; try congruence.
  unfold Ascii.compare.
  destruct (N.compare_spec (Ascii.N_of_ascii x) (Ascii.N_of_ascii y)) as [E1|L1|G1];
    destruct (N.compare_spec (Ascii.N_of_ascii y) (Ascii.N_of_ascii z)) as [E2|L2|G2];
    try congruence; intros H1 H2.
  - rewrite E1, E2, N.compare_refl. by apply (IH b c).
  - rewrite E1. by rewrite (proj2 (N.compare_lt_iff _ _) L2).
  - rewrite <- E2. by rewrite (proj2 (N.compare_lt_iff _ _) L1).
  - by rewrite (proj2 (N.compare_lt_iff _ _) (N.lt_trans _ _ _ L1 L2)).
Qed.

Lemma str_le_compare a b : str_le a b <-> String.compare a b <> Gt.
Proof.
  unfold str_le, String.leb. destruct (String.compare a b); split; congruence.
Qed.

Global Instance str_le_trans : Transitive str_le.
Proof.
  intros a b c. rewrite !str_le_compare. apply string_compare_le_trans.
Qed.

Global Instance str_le_total : Total str_le.
Proof. intros a b. apply String.leb_total. Qed.

Global Instance str_le_antisym : AntiSymm (=) str_le.
Proof. intros a b. apply String.leb_antisym. Qed.

(** ** The computation monad *)

Lemma bind_ok {A B} (t : list Event) (a : A) (f : A -> M B) :
  bind (t, inr a) f = (t ++ trace (f a), result (f a)).
Proof. reflexivity. Qed.

Lemma bind_fail {A B} (t : list Event) (e : exn) (f : A -> M B) :
  bind (t, inl e) f = (t, inl e).
Proof. reflexivity. Qed.

Lemma bind_ret {A B} (a : A) (f : A -> M B) : bind (ret a) f = f a.
Proof. unfold bind, ret. simpl. by destruct (f a). Qed.

Lemma bind_raise {A B} (e : exn) (f : A -> M B) : bind (raise e) f = raise e.
Proof. reflexivity. Qed.

Lemma bind_trace_prefix {A B} (m : M A) (f : A -> M B) :
  exists t', trace (bind m f) = trace m ++ t'.
Proof.
  destruct m as [t [e|a]]; simpl.
  - exists []. by rewrite app_nil_r.
  - by exists (fst (f a)).
Qed.

(** ** The loop as a fold over the stream of returned items *)

Lemma foldl_visit_scan q st items :
  foldl (visit q) st items = scan st (pair q <$> items).
Proof.
  revert st. induction items as [|it items IH]; intros st; [done|].
  simpl. by rewrite IH.
Qed.

Lemma search_all_eq cfg w queries : forall st,
  search_all cfg w queries st =
    (flat_map (search_trace cfg w) queries,
     inr (scan st (stream cfg w queries))).
Proof.
  induction queries as [|q queries IH]; intros st; [done|].
  simpl. unfold stream in *. simpl.
  unfold scan. rewrite foldl_app. fold (scan st (pair q <$> items_for cfg w q)).
  rewrite <- foldl_visit_scan.
  unfold items_for, search_trace, trace, result.
  destruct (google_custom_search cfg w q 1) as [t [e|items]]; simpl;
    rewrite IH; simpl; by rewrite ?app_nil_r.
Qed.

(** ** What one visit does *)

Lemma truthy_Some l : truthy (Some l) = true <-> l <> "".
Proof.
  simpl. destruct (String.eqb_spec l ""); simpl; split; congruence.
Qed.

Lemma truthy_true o : truthy o = true -> exists l, o = Some l /\ l <> "".
Proof.
  destruct o as [l|]; [|done]. intros H. exists l. split; [done|].
  by apply truthy_Some.
Qed.

Lemma visit_skip q st it :
  truthy (item_link it) = false \/
    py_str (item_link it) ∈ strs (sent_set st) ->
  visit q st it = st.
Proof.
  unfold visit. intros [H|H].
  - by rewrite H.
  - destruct (truthy (item_link it)); [|done]. simpl. by rewrite decide_True.
Qed.

Lemma visit_new q st it l :
  item_link it = Some l -> l <> "" -> l ∉ strs (sent_set st) ->
  visit q st it =
    {| sent_set := set_add l (sent_set st);
       found_results := found_results st ++ [entry q it];
       added_links := added_links st ++ [l] |}.
Proof.
  intros Hl Hne Hnew. unfold visit, entry. rewrite Hl.
  rewrite (proj2 (truthy_Some l) Hne). simpl. by rewrite decide_False.
Qed.

Lemma visit_cases q st it :
  (visit q st it = st /\
     (truthy (item_link it) = false \/
        py_str (item_link it) ∈ strs (sent_set st))) \/
  (exists l, item_link it = Some l /\ l <> "" /\
     (l ∉ strs (sent_set st)) /\
     visit q st it =
       {| sent_set := set_add l (sent_set st);
          found_results := found_results st ++ [entry q it];
          added_links := added_links st ++ [l] |}).
Proof.
  destruct (truthy (item_link it)) eqn:Ht.
  - destruct (truthy_true _ Ht) as (l & Hl & Hne).
    destruct (decide (l ∈ strs (sent_set st))) as [Hin|Hout].
    + left. split; [|right; by rewrite Hl]. apply visit_skip. right.
      by rewrite Hl.
    + right. exists l. eauto using visit_new.
  - left. split; [|by left]. apply visit_skip. by left.
Qed.

(** ** The loop invariant *)

Lemma Inv_start s : Inv (strs s) (foreign s) (start s).
Proof.
  split; simpl; try done.
  - set_solver.
  - constructor.
  - intros l Hl. by apply elem_of_nil in Hl.
Qed.

Section invariant.
Context (S0 : gset string) (f0 : bool).

Lemma Inv_visit q st it :
  Inv S0 f0 st -> Inv S0 f0 (visit q st it).
Proof.
  intros [Hs Hf Hl Hn Hfr].
  destruct (visit_cases q st it) as [[-> _]|(l & Hit & Hne & Hnew & ->)];
    [done|].
  assert ((l ∉ added_links st) /\ (l ∉ S0)) as [Hla HlS].
  { rewrite Hs in Hnew. set_solver. }
  split; simpl.
  - rewrite Hs, list_to_set_app_L. set_solver.
  - done.
  - rewrite fmap_app, Hl. simpl. by rewrite Hit.
  - apply NoDup_app. split; [done|]. split; [|apply NoDup_singleton].
    intros x Hx Hx'. apply list_elem_of_singleton in Hx'. by subst.
  - intros x Hx. apply elem_of_app in Hx as [Hx|Hx]; [by apply Hfr|].
    apply list_elem_of_singleton in Hx. by subst.
Qed.

Lemma Inv_scan ps : forall st,
  Inv S0 f0 st -> Inv S0 f0 (scan st ps).
Proof.
  induction ps as [|[q it] ps IH]; intros st H; [done|].
  simpl. apply IH. by apply Inv_visit.
Qed.

End invariant.

(** The set only grows, and the new results are only appended to. *)
Lemma visit_mono q st it :
  strs (sent_set st) ⊆ strs (sent_set (visit q st it)) /\
  exists ext, found_results (visit q st it) = found_results st ++ ext.
Proof.
  destruct (visit_cases q st it) as [[-> _]|(l & _ & _ & _ & ->)]; simpl.
  - split; [done|]. exists []. by rewrite app_nil_r.
  - split; [set_solver|]. by eexists.
Qed.

Lemma scan_mono ps : forall st,
  strs (sent_set st) ⊆ strs (sent_set (scan st ps)) /\
  exists ext, found_results (scan st ps) = found_results st ++ ext.
Proof.
  induction ps as [|[q it] ps IH]; intros st.
  - split; [done|]. exists []. by rewrite app_nil_r.
  - simpl. destruct (IH (visit q st it)) as [H1 [e1 H2]].
    destruct (visit_mono q st it) as [H3 [e2 H4]].
    split; [set_solver|]. exists (e2 ++ e1).
    change (scan (visit_pair st (q, it)) ps) with (scan (visit q st it) ps).
    by rewrite H2, H4, app_assoc.
Qed.

Lemma scan_cons st q it ps :
  scan st ((q, it) :: ps) = scan (visit q st it) ps.
Proof. reflexivity. Qed.

Lemma scan_app st ps1 ps2 : scan st (ps1 ++ ps2) = scan (scan st ps1) ps2.
Proof. apply foldl_app. Qed.

(** Every link that was returned, and is not empty, is in the set at the
    end. *)
Lemma scan_covers ps : forall st q it l,
  (q, it) ∈ ps -> item_link it = Some l -> l <> "" ->
  l ∈ strs (sent_set (scan st ps)).
Proof.
  induction ps as [|[q' it'] ps IH]; intros st q it l Hin Hl Hne.
  - by apply elem_of_nil in Hin.
  - apply elem_of_cons in Hin as [Heq|Hin]; [|by apply (IH _ q it l)].
    injection Heq as <- <-. simpl.
    apply (proj1 (scan_mono ps (visit q st it))).
    destruct (visit_cases q st it) as [[-> [Ht|Hs]]|(l' & Hl' & _ & _ & ->)].
    + rewrite Hl in Ht. by apply truthy_Some in Hne; congruence.
    + by rewrite Hl in Hs.
    + simpl. rewrite Hl in Hl'. injection Hl' as <-. set_solver.
Qed.

(** A link that no item carries does not enter the set. *)
Lemma scan_frame ps : forall st l,
  (forall q it, (q, it) ∈ ps -> item_link it <> Some l) ->
  l ∉ strs (sent_set st) -> l ∉ strs (sent_set (scan st ps)).
Proof.
  induction ps as [|[q it] ps IH]; intros st l Hno Hout; [done|].
  simpl. apply IH.
  - intros q' it' Hin. apply (Hno q'). by right.
  - change (visit_pair st (q, it)) with (visit q st it).
    destruct (visit_cases q st it) as [[-> _]|(l' & Hl' & _ & _ & ->)];
      [done|].
    simpl. assert (l <> l'); [|set_solver].
    intros ->. by apply (Hno q it); [left|].
Qed.

(** The first item that carries a new link makes the entry for it. *)
Lemma scan_first pre q it post st l :
  (forall q' it', (q', it') ∈ pre -> item_link it' <> Some l) ->
  l ∉ strs (sent_set st) -> item_link it = Some l -> l <> "" ->
  entry q it ∈ found_results (scan st (pre ++ (q, it) :: post)).
Proof.
  intros Hpre Hout Hl Hne. rewrite scan_app, scan_cons.
  pose proof (scan_frame pre st l Hpre Hout) as Hout'.
  rewrite (visit_new q _ it l Hl Hne Hout').
  match goal with |- _ ∈ found_results (scan ?s _) =>
    destruct (scan_mono post s) as [_ [ext ->]] end.
  simpl. apply elem_of_app. left. apply elem_of_app. right. by left.
Qed.

(** Items without a link, and items whose link is in the set, change
    nothing. *)
Lemma scan_idle ps : forall st,
  (forall q it, (q, it) ∈ ps ->
     truthy (item_link it) = false \/
       py_str (item_link it) ∈ strs (sent_set st)) ->
  scan st ps = st.
Proof.
  induction ps as [|[q it] ps IH]; intros st H; [done|].
  simpl. change (visit_pair st (q, it)) with (visit q st it).
  rewrite visit_skip by (apply (H q it); by left).
  apply IH. intros q' it' Hin. apply (H q'). by right.
Qed.

Lemma scan_filter_has_link ps : forall st,
  scan st (filter (fun p => has_link p = true) ps) = scan st ps.
Proof.
  induction ps as [|[q it] ps IH]; intros st; [done|].
  destruct (truthy (item_link it)) eqn:Ht.
  - rewrite filter_cons_True by done. rewrite !scan_cons. apply IH.
  - rewrite filter_cons_False by (unfold has_link; simpl; congruence).
    rewrite scan_cons, (visit_skip q st it) by by left. apply IH.
Qed.

(** Nothing new is found exactly when every returned link is missing,
    empty or already in the set the loop started from. *)
Lemma scan_nothing_new s ps :
  found_results (scan (start s) ps) = [] <->
  (forall q it, (q, it) ∈ ps ->
     truthy (item_link it) = false \/ py_str (item_link it) ∈ strs s).
Proof.
  split.
  - intros Hnil q it Hin.
    destruct (truthy (item_link it)) eqn:Ht; [right|by left].
    destruct (truthy_true _ Ht) as (l & Hl & Hne). rewrite Hl. simpl.
    pose proof (scan_covers ps (start s) q it l Hin Hl Hne) as Hc.
    destruct (Inv_scan _ _ ps _ (Inv_start s)) as [Hs _ Hlk _ _].
    rewrite Hnil in Hlk. simpl in Hlk. rewrite Hs, <- Hlk in Hc. set_solver.
  - intros H. by rewrite scan_idle.
Qed.

(** ** Reading a trace *)

Lemma puts_app t1 t2 : puts (t1 ++ t2) = puts t1 ++ puts t2.
Proof. apply omap_app. Qed.

Lemma mails_app t1 t2 : mails (t1 ++ t2) = mails t1 ++ mails t2.
Proof. apply omap_app. Qed.

(** ** The phases of [run] *)

Lemma get_repo_file_trace cfg w path :
  trace (get_repo_file cfg w path) = [GetRepo (api_url cfg path) (headers cfg)].
Proof.
  unfold get_repo_file, request, raise_for_status.
  destruct (store_get w) as [|status [obj|]]; simpl; [done|..];
    repeat (case_match; simpl; try done).
Qed.

Lemma load_state_trace cfg w : trace (load_state cfg w) = [get_event cfg].
Proof.
  unfold load_state, get_event.
  pose proof (get_repo_file_trace cfg w (FILE_PATH cfg)) as H.
  destruct (get_repo_file cfg w (FILE_PATH cfg)) as [t [e|obj]];
    simpl in *; [done|].
  subst t. unfold py_set. by case_match.
Qed.

Lemma search_trace_ok cfg w q :
  truthy (GCP_API_KEY cfg) = true -> truthy (CSE_ID cfg) = true ->
  search_trace cfg w q = [search_event cfg q].
Proof.
  intros H1 H2. unfold search_trace, google_custom_search, request,
    raise_for_status, search_event. rewrite H1, H2. simpl.
  destruct (search w q) as [|status [items|]]; simpl; [done|..];
    repeat (case_match; simpl; try done).
Qed.

Lemma preflight_true cfg :
  preflight cfg = true ->
  truthy (GCP_API_KEY cfg) = true /\ truthy (CSE_ID cfg) = true /\
  truthy (FROM_EMAIL cfg) = true /\ truthy (TO_EMAIL cfg) = true.
Proof.
  unfold preflight. rewrite !andb_true_iff. tauto.
Qed.

Lemma searches_trace cfg w queries :
  preflight cfg = true ->
  flat_map (search_trace cfg w) queries = search_event cfg <$> queries.
Proof.
  intros (H1 & H2 & _)%preflight_true.
  induction queries as [|q queries IH]; [done|].
  simpl. by rewrite IH, search_trace_ok.
Qed.

Lemma run_on_rejected queries cfg w :
  preflight cfg = false ->
  exists msg, run_on queries cfg w = ([], inl (RuntimeError msg)).
Proof.
  unfold preflight, run_on. intros H.
  destruct (truthy (GCP_API_KEY cfg)), (truthy (CSE_ID cfg)); simpl in *;
    eauto.
  destruct (truthy (FROM_EMAIL cfg)), (truthy (TO_EMAIL cfg)); simpl in *;
    eauto. done.
Qed.

Lemma run_on_phases queries cfg w :
  preflight cfg = true ->
  run_on queries cfg w =
    (p <- load_state cfg w ;;
     st <- search_all cfg w queries (start p.1) ;;
     notify_and_save cfg w st p.2).
Proof.
  intros (H1 & H2 & H3 & H4)%preflight_true.
  unfold run_on, load_state. rewrite H1, H2, H3, H4. simpl.
  destruct (get_repo_file cfg w (FILE_PATH cfg)) as [t [e|obj]]; [done|].
  simpl. destruct (py_set (existing_links_of obj)) as [t' [e|s]]; simpl;
    [done|].
  by rewrite app_nil_r, <- app_assoc.
Qed.

Lemma run_on_load_fail queries cfg w e :
  preflight cfg = true -> result (load_state cfg w) = inl e ->
  run_on queries cfg w = ([get_event cfg], inl e).
Proof.
  intros Hp He. rewrite run_on_phases by done.
  pose proof (load_state_trace cfg w) as Ht.
  destruct (load_state cfg w) as [t [e'|p]]; simpl in *; congruence.
Qed.

Lemma run_on_loaded queries cfg w s remote_sha :
  preflight cfg = true -> result (load_state cfg w) = inr (s, remote_sha) ->
  run_on queries cfg w =
    (get_event cfg :: (search_event cfg <$> queries) ++
       trace (notify_and_save cfg w (final queries cfg w s) remote_sha),
     result (notify_and_save cfg w (final queries cfg w s) remote_sha)).
Proof.
  intros Hp He. rewrite run_on_phases by done.
  pose proof (load_state_trace cfg w) as Ht.
  destruct (load_state cfg w) as [t [e'|p]]; simpl in *; [done|].
  injection He as ->. subst t. rewrite search_all_eq. simpl.
  by rewrite searches_trace.
Qed.

(** ** Notification and write-back *)

Lemma send_email_puts cfg w subject html text :
  puts (trace (send_email cfg w subject html text)) = [].
Proof.
  unfold send_email, send_email_sendgrid, send_email_smtp, request,
    raise_for_status.
  repeat (case_match; simpl; try done).
Qed.

Lemma send_email_mails cfg w subject html text :
  mails (trace (send_email cfg w subject html text)) = [] \/
  mails (trace (send_email cfg w subject html text)) = [(subject, html)].
Proof.
  unfold send_email, send_email_sendgrid, send_email_smtp, request,
    raise_for_status.
  repeat (case_match; simpl; auto).
Qed.

Lemma save_sent_links_trace cfg w new_list remote_sha :
  exists url auth message,
    trace (save_sent_links cfg w new_list remote_sha) =
      [PutRepo url auth message new_list (payload_sha_of remote_sha)].
Proof.
  unfold save_sent_links, create_or_update_repo_file, request,
    raise_for_status, payload_sha_of.
  do 3 eexists. repeat (case_match; simpl; try done).
Qed.

Lemma notify_nothing cfg w st remote_sha :
  found_results st = [] -> notify_and_save cfg w st remote_sha = ([], inr tt).
Proof. unfold notify_and_save. by intros ->. Qed.

Lemma notify_unfold cfg w st remote_sha :
  found_results st <> [] ->
  notify_and_save cfg w st remote_sha =
    (send_new cfg w st ;;;
     new_list <- py_sorted (sent_set st) ;;
     save_sent_links cfg w new_list remote_sha).
Proof.
  unfold notify_and_save, send_new, mail_subject, mail_html.
  by destruct (found_results st).
Qed.

Lemma notify_send_fail cfg w st remote_sha e :
  found_results st <> [] -> result (send_new cfg w st) = inl e ->
  notify_and_save cfg w st remote_sha = (trace (send_new cfg w st), inl e).
Proof.
  intros Hne He. rewrite notify_unfold by done.
  destruct (send_new cfg w st) as [t [e'|[]]]; simpl in *; congruence.
Qed.

Lemma notify_puts cfg w st remote_sha :
  puts (trace (notify_and_save cfg w st remote_sha)) =
    match found_results st, result (send_new cfg w st),
          foreign (sent_set st) with
    | _ :: _, inr _, false =>
        [(merge_sort str_le (elements (strs (sent_set st))),
          payload_sha_of remote_sha)]
    | _, _, _ => []
    end.
Proof.
  destruct (found_results st) as [|r rs] eqn:Hf.
  { by rewrite notify_nothing. }
  rewrite notify_unfold by (rewrite Hf; done).
  pose proof (send_email_puts cfg w (mail_subject w st) (mail_html w st)
    (Some (pretty (length (found_results st)) +:+ " new results; see HTML.")))
    as Hs. fold (send_new cfg w st) in Hs.
  destruct (send_new cfg w st) as [t [e|[]]]; simpl in *; [done|].
  rewrite puts_app, Hs. unfold py_sorted.
  destruct (foreign (sent_set st)); simpl; [done|].
  destruct (save_sent_links_trace cfg w
    (merge_sort str_le (elements (strs (sent_set st)))) remote_sha)
    as (url & auth & msg & Ht).
  unfold trace in Ht. by rewrite Ht.
Qed.

Lemma notify_mails cfg w st remote_sha :
  mails (trace (notify_and_save cfg w st remote_sha)) = [] \/
  (found_results st <> [] /\
   mails (trace (notify_and_save cfg w st remote_sha)) =
     [(mail_subject w st, mail_html w st)]).
Proof.
  destruct (found_results st) as [|r rs] eqn:Hf.
  { left. by rewrite notify_nothing. }
  rewrite notify_unfold by (rewrite Hf; done).
  destruct (send_email_mails cfg w (mail_subject w st) (mail_html w st)
    (Some (pretty (length (found_results st)) +:+ " new results; see HTML.")))
    as [Hs|Hs]; fold (send_new cfg w st) in Hs;
    [left|right; split; [done|]];
    (destruct (send_new cfg w st) as [t [e|[]]]; simpl in *; [done|];
     rewrite mails_app, Hs; unfold py_sorted;
     destruct (foreign (sent_set st)); simpl; [done|];
     destruct (save_sent_links_trace cfg w
       (merge_sort str_le (elements (strs (sent_set st)))) remote_sha)
       as (url & auth & msg & Ht);
     unfold trace in Ht; by rewrite Ht).
Qed.

(** ** The sorted listing of a set *)

Lemma listing_elem_of S l : l ∈ listing S <-> l ∈ S.
Proof.
  unfold listing. rewrite merge_sort_Permutation. apply elem_of_elements.
Qed.

Lemma listing_NoDup S : NoDup (listing S).
Proof.
  unfold listing. rewrite merge_sort_Permutation. apply NoDup_elements.
Qed.

Lemma listing_sorted S : StronglySorted str_le (listing S).
Proof. apply StronglySorted_merge_sort; apply _. Qed.

Lemma filter_none {A} (P : A -> Prop) `{forall x, Decision (P x)}
    (xs : list A) :
  (forall z, z ∈ xs -> ~ P z) -> filter P xs = [].
Proof.
  induction xs as [|y xs IH]; intros Hno; [done|].
  rewrite filter_cons_False by (apply Hno; by left).
  apply IH. intros z Hz. apply Hno. by right.
Qed.

(** In a list without two elements of the same key, the elements of one
    key are one element. *)
Lemma filter_unique {A} (key : A -> string) (xs : list A) (x : A) :
  NoDup (key <$> xs) -> x ∈ xs ->
  filter (fun y => key y = key x) xs = [x].
Proof.
  induction xs as [|y xs IH]; intros Hnd Hin.
  - by apply elem_of_nil in Hin.
  - rewrite fmap_cons in Hnd. apply NoDup_cons in Hnd as [Hy Hnd].
    assert (forall z, z ∈ xs -> key z <> key y) as Hother.
    { intros z Hz Heq. apply Hy. rewrite <- Heq.
      apply list_elem_of_fmap. by exists z. }
    apply elem_of_cons in Hin as [->|Hin].
    + rewrite filter_cons_True by done. f_equal.
      apply filter_none. intros z Hz. by apply Hother.
    + rewrite filter_cons_False by (intros Heq; by apply (Hother x)).
      by apply IH.
Qed.

(** ** What [run] can write and send *)

Lemma fetch_and_searches_silent cfg queries :
  mails (get_event cfg :: (search_event cfg <$> queries)) = [] /\
  puts (get_event cfg :: (search_event cfg <$> queries)) = [].
Proof.
  unfold mails, puts. simpl. induction queries as [|q queries [IH1 IH2]];
    [done|]. by simpl.
Qed.

(** Nothing is a member of the empty list of writes or mails. *)
Ltac no_member := let H := fresh in intros H; by apply elem_of_nil in H.

Lemma run_on_puts queries cfg w new_list payload_sha :
  (new_list, payload_sha) ∈ puts (trace (run_on queries cfg w)) ->
  exists s remote_sha,
    preflight cfg = true /\
    result (load_state cfg w) = inr (s, remote_sha) /\
    found_results (final queries cfg w s) <> [] /\
    result (send_new cfg w (final queries cfg w s)) = inr tt /\
    foreign s = false /\
    new_list = listing (strs (sent_set (final queries cfg w s))) /\
    payload_sha = payload_sha_of remote_sha.
Proof.
  destruct (preflight cfg) eqn:Hp.
  2:{ destruct (run_on_rejected queries cfg w Hp) as [msg ->].
      no_member. }
  destruct (result (load_state cfg w)) as [e|[s remote_sha]] eqn:Hl.
  { rewrite (run_on_load_fail queries cfg w e Hp Hl).
    no_member. }
  rewrite (run_on_loaded queries cfg w s remote_sha Hp Hl).
  unfold trace at 1. simpl. unfold puts at 1. simpl. fold (puts).
  rewrite puts_app.
  assert (puts (search_event cfg <$> queries) = []) as ->.
  { clear. induction queries; [done|]. by simpl. }
  simpl. rewrite notify_puts.
  pose proof (Inv_scan _ _ (stream cfg w queries) _ (Inv_start s))
    as [_ Hf _ _ _]. fold (final queries cfg w s) in Hf. simpl in Hf.
  destruct (found_results (final queries cfg w s)) as [|r rs] eqn:Hfd; simpl.
  { no_member. }
  destruct (result (send_new cfg w (final queries cfg w s)))
    as [e|[]] eqn:Hsd.
  { no_member. }
  destruct (foreign (sent_set (final queries cfg w s))) eqn:Hfo.
  { no_member. }
  intros H. apply list_elem_of_singleton in H. injection H as -> ->.
  exists s, remote_sha. by rewrite Hfd.
Qed.

Lemma run_on_mails queries cfg w subject html :
  (subject, html) ∈ mails (trace (run_on queries cfg w)) ->
  exists s remote_sha,
    preflight cfg = true /\
    result (load_state cfg w) = inr (s, remote_sha) /\
    found_results (final queries cfg w s) <> [] /\
    subject = mail_subject w (final queries cfg w s) /\
    html = build_email_html (now_date w)
             (found_results (final queries cfg w s)).
Proof.
  destruct (preflight cfg) eqn:Hp.
  2:{ destruct (run_on_rejected queries cfg w Hp) as [msg ->].
      no_member. }
  destruct (result (load_state cfg w)) as [e|[s remote_sha]] eqn:Hl.
  { rewrite (run_on_load_fail queries cfg w e Hp Hl).
    no_member. }
  rewrite (run_on_loaded queries cfg w s remote_sha Hp Hl).
  unfold trace at 1. simpl. unfold mails at 1. simpl. fold (mails).
  rewrite mails_app.
  assert (mails (search_event cfg <$> queries) = []) as ->.
  { clear. induction queries; [done|]. by simpl. }
  simpl.
  destruct (notify_mails cfg w (final queries cfg w s) remote_sha)
    as [->|[Hne ->]].
  { no_member. }
  intros H. apply list_elem_of_singleton in H. injection H as -> ->.
  by exists s, remote_sha.
Qed.

(** When the notification goes out and the fetched list held strings
    only, the run makes exactly one write. *)
Lemma run_on_written queries cfg w s remote_sha :
  preflight cfg = true ->
  result (load_state cfg w) = inr (s, remote_sha) ->
  found_results (final queries cfg w s) <> [] ->
  result (send_new cfg w (final queries cfg w s)) = inr tt ->
  foreign s = false ->
  puts (trace (run_on queries cfg w))
    = [(listing (strs (sent_set (final queries cfg w s))),
        payload_sha_of remote_sha)].
Proof.
  intros Hp Hl Hne Hok Hfo.
  rewrite (run_on_loaded queries cfg w s remote_sha Hp Hl).
  unfold trace at 1. simpl fst.
  change (get_event cfg :: (search_event cfg <$> queries) ++ ?t)
    with ((get_event cfg :: (search_event cfg <$> queries)) ++ t).
  rewrite puts_app, (proj2 (fetch_and_searches_silent cfg queries)).
  rewrite notify_puts, Hok.
  pose proof (Inv_scan _ _ (stream cfg w queries) _ (Inv_start s))
    as [_ Hf _ _ _]. fold (final queries cfg w s) in Hf. simpl in Hf.
  rewrite Hf, Hfo.
  by destruct (found_results (final queries cfg w s)).
Qed.

(** ** Runs in worlds that differ in the search answers only *)

Lemma search_trace_eq cfg w q :
  search_trace cfg w q =
    if negb (truthy (GCP_API_KEY cfg)) || negb (truthy (CSE_ID cfg))
    then [] else [search_event cfg q].
Proof.
  unfold search_trace, google_custom_search, request, raise_for_status,
    search_event, trace.
  destruct (negb (truthy (GCP_API_KEY cfg)) || negb (truthy (CSE_ID cfg)));
    [done|].
  destruct (search w q) as [|status [items|]]; simpl; [done|..];
    repeat (case_match; simpl; try done).
Qed.

Lemma search_trace_any cfg w w' q :
  search_trace cfg w q = search_trace cfg w' q.
Proof. by rewrite !search_trace_eq. Qed.

Lemma items_for_ext cfg w w' q :
  search w' q = search w q -> items_for cfg w' q = items_for cfg w q.
Proof.
  intros H. unfold items_for, google_custom_search. by rewrite H.
Qed.

Lemma stream_ext cfg w w' queries :
  (forall q, q ∈ queries -> items_for cfg w' q = items_for cfg w q) ->
  stream cfg w' queries = stream cfg w queries.
Proof.
  unfold stream. induction queries as [|q queries IH]; intros H; [done|].
  simpl. rewrite H by by left. rewrite IH; [done|].
  intros q' Hq'. apply H. by right.
Qed.

Lemma load_state_ext cfg w w' :
  store_get w' = store_get w -> load_state cfg w' = load_state cfg w.
Proof.
  intros H. unfold load_state, get_repo_file. by rewrite H.
Qed.

Lemma run_on_ext queries cfg w f :
  (forall st, scan st (stream cfg (with_search f w) queries) =
              scan st (stream cfg w queries)) ->
  run_on queries cfg (with_search f w) = run_on queries cfg w.
Proof.
  intros Hscan. unfold run_on.
  repeat (case_match; [done|]).
  change (get_repo_file cfg (with_search f w) (FILE_PATH cfg))
    with (get_repo_file cfg w (FILE_PATH cfg)).
  destruct (get_repo_file cfg w (FILE_PATH cfg)) as [t [e|obj]]; [done|].
  simpl. destruct (py_set (existing_links_of obj)) as [t' [e|s]]; [done|].
  simpl. rewrite !search_all_eq, Hscan. simpl.
  assert (flat_map (search_trace cfg (with_search f w)) queries =
          flat_map (search_trace cfg w) queries) as ->; [|done].
  clear. induction queries as [|q queries IH]; [done|].
  simpl. by rewrite IH, (search_trace_any cfg _ w).
Qed.

(** ** The properties of the specification *)

(** C1.  Cross-query deduplication within one run.  Take a link [l] that
    is not empty and not in the fetched set, and the first item of the
    whole run that carries it, returned by query [q]; other items with the
    same link may follow, from [q] or from a later query.  Then the new
    results hold exactly one entry for [l], the one made from that first
    item and attributed to [q]; every notification the run sends is built
    from these new results; [l] is added exactly once; every list the
    run writes holds exactly one copy of [l]; and when the notification
    goes out (and the fetched list held strings only) the run does make
    one write, sent with the fetched [sha].  In the end-to-end scenario
    the run sends one notification, whose only entry is the one for
    [job2] from the first query, and makes one write, of
    [job1; job2] with version [v1]. *)
Theorem cross_query_dedup :
  (forall queries cfg w s remote_sha pre q it post l,
     result (load_state cfg w) = inr (s, remote_sha) ->
     stream cfg w queries = pre ++ (q, it) :: post ->
     Forall (fun p => item_link p.2 <> Some l) pre ->
     item_link it = Some l -> l <> "" -> l ∉ strs s ->
     filter (fun r => link r = l) (found_results (final queries cfg w s))
       = [entry q it] /\
     (forall subject html,
        (subject, html) ∈ mails (trace (run_on queries cfg w)) ->
        html = build_email_html (now_date w)
                 (found_results (final queries cfg w s))) /\
     filter (fun x => x = l) (added_links (final queries cfg w s)) = [l] /\
     (forall new_list payload_sha,
        (new_list, payload_sha) ∈ puts (trace (run_on queries cfg w)) ->
        filter (fun x => x = l) new_list = [l]) /\
     (preflight cfg = true ->
      result (send_new cfg w (final queries cfg w s)) = inr tt ->
      foreign s = false ->
      exists new_list,
        puts (trace (run_on queries cfg w))
          = [(new_list, payload_sha_of remote_sha)] /\
        filter (fun x => x = l) new_list = [l])) /\
  (result (run cfg_sendgrid world_scenario) = inr tt /\
   mails (trace (run cfg_sendgrid world_scenario)) =
     [("Daily job search — 2024-05-01 — 1 new",
       build_email_html "2024-05-01" [entry query1 item_job2])] /\
   puts (trace (run cfg_sendgrid world_scenario)) =
     [([job1; job2], Some "v1")]).
Proof.
  split; [|by vm_compute].
  intros queries cfg w s remote_sha pre q it post l Hl Hst Hpre Hit Hne Hnew.
  pose proof (Inv_scan _ _ (stream cfg w queries) _ (Inv_start s))
    as [Hs _ Hlk Hnd Hfr]. fold (final queries cfg w s) in Hs, Hlk, Hnd, Hfr.
  assert (entry q it ∈ found_results (final queries cfg w s)) as Hin.
  { unfold final. rewrite Hst. apply (scan_first _ _ _ _ _ l); try done.
    intros q' it' Hq'. by apply (proj1 (Forall_forall _ _) Hpre (q', it')). }
  assert (link (entry q it) = l) as Hlink by (simpl; by rewrite Hit).
  assert (l ∈ added_links (final queries cfg w s)) as Hadded.
  { rewrite <- Hlk, <- Hlink. apply list_elem_of_fmap. by eexists. }
  assert (filter (fun x => x = l)
            (listing (strs (sent_set (final queries cfg w s)))) = [l])
    as Hcopy.
  { apply (filter_unique id); [rewrite list_fmap_id; apply listing_NoDup|].
    apply listing_elem_of. rewrite Hs. set_solver. }
  repeat split.
  - rewrite <- Hlink. apply filter_unique; [|done]. by rewrite Hlk.
  - intros subject html Hm.
    apply run_on_mails in Hm as (s' & sha' & _ & Hl' & _ & _ & ->).
    rewrite Hl in Hl'. by injection Hl' as <- <-.
  - apply (filter_unique id); [by rewrite list_fmap_id|done].
  - intros new_list payload_sha Hput.
    apply run_on_puts in Hput as (s' & sha' & _ & Hl' & _ & _ & _ & -> & _).
    rewrite Hl in Hl'. injection Hl' as <- <-. by apply Hcopy.
  - intros Hp Hok Hfo. eexists. split; [|by apply Hcopy].
    apply run_on_written; try done. intros Hnil. rewrite Hnil in Hin.
    by apply elem_of_nil in Hin.
Qed.

Lemma cross_query_dedup_witness :
  result (load_state cfg_sendgrid world_scenario)
    = inr (seen [job1], Some "v1") /\
  stream cfg_sendgrid world_scenario QUERIES
    = [(query1, item job1 None None)]
        ++ (query1, item_job2) :: [(query2, item job2 None None)] /\
  filter (fun r => link r = job2)
    (found_results (final QUERIES cfg_sendgrid world_scenario (seen [job1])))
    = [entry query1 item_job2] /\
  filter (fun x => x = job2)
    (added_links (final QUERIES cfg_sendgrid world_scenario (seen [job1])))
    = [job2].
Proof.
  assert (result (load_state cfg_sendgrid world_scenario)
          = inr (seen [job1], Some "v1")) as H2 by (vm_compute; reflexivity).
  assert (stream cfg_sendgrid world_scenario QUERIES
          = [(query1, item job1 None None)]
              ++ (query1, item_job2) :: [(query2, item job2 None None)])
    as H3 by (vm_compute; reflexivity).
  assert (Forall (fun p : string * Item => item_link p.2 <> Some job2)
            [(query1, item job1 None None)]) as H4
    by (apply (bool_decide_unpack _); vm_compute; exact I).
  assert (item_link item_job2 = Some job2) as H5 by reflexivity.
  assert (job2 <> "") as H6 by (vm_compute; discriminate).
  assert (job2 ∉ strs (seen [job1])) as H7
    by (apply (bool_decide_unpack _); vm_compute; exact I).
  destruct (proj1 cross_query_dedup QUERIES cfg_sendgrid world_scenario
              (seen [job1]) (Some "v1") _ query1 item_job2 _ job2
              H2 H3 H4 H5 H6 H7) as (C1 & _ & C3 & _).
  exact (conj H2 (conj H3 (conj C1 C3))).
Defined.

(** C2.  Deduplication against the stored state.  A link [l] of the set
    fetched at the start of the run is never among the new results nor
    among the added links; every notification the run sends is built from
    the new results, so it has no entry for [l]; and every list the run
    writes holds [l] exactly once. *)
Theorem seen_links_not_renotified queries cfg w s remote_sha l :
  result (load_state cfg w) = inr (s, remote_sha) ->
  l ∈ strs s ->
  (l ∉ link <$> found_results (final queries cfg w s)) /\
  (l ∉ added_links (final queries cfg w s)) /\
  (forall subject html,
     (subject, html) ∈ mails (trace (run_on queries cfg w)) ->
     html = build_email_html (now_date w)
              (found_results (final queries cfg w s))) /\
  (forall new_list payload_sha,
     (new_list, payload_sha) ∈ puts (trace (run_on queries cfg w)) ->
     filter (fun x => x = l) new_list = [l]).
Proof.
  intros Hl Hin.
  pose proof (Inv_scan _ _ (stream cfg w queries) _ (Inv_start s))
    as [Hs _ Hlk _ Hfr]. fold (final queries cfg w s) in Hs, Hlk, Hfr.
  assert (l ∉ added_links (final queries cfg w s)) as Hout.
  { intros Ha. by destruct (Hfr l Ha). }
  repeat split.
  - by rewrite Hlk.
  - done.
  - intros subject html Hm.
    apply run_on_mails in Hm as (s' & sha' & _ & Hl' & _ & _ & ->).
    rewrite Hl in Hl'. by injection Hl' as <- <-.
  - intros new_list payload_sha Hput.
    apply run_on_puts in Hput as (s' & sha' & _ & Hl' & _ & _ & _ & -> & _).
    rewrite Hl in Hl'. injection Hl' as <- <-.
    apply (filter_unique id); [rewrite list_fmap_id; apply listing_NoDup|].
    apply listing_elem_of. rewrite Hs. set_solver.
Qed.

Lemma seen_links_not_renotified_witness :
  result (load_state cfg_sendgrid world_scenario)
    = inr (seen [job1], Some "v1") /\
  job1 ∈ strs (seen [job1]) /\
  (job1 ∉ link <$>
     found_results (final QUERIES cfg_sendgrid world_scenario (seen [job1]))).
Proof.
  assert (result (load_state cfg_sendgrid world_scenario)
          = inr (seen [job1], Some "v1")) as H1 by (vm_compute; reflexivity).
  assert (job1 ∈ strs (seen [job1])) as H2
    by (apply (bool_decide_unpack _); vm_compute; exact I).
  exact (conj H1 (conj H2
    (proj1 (seen_links_not_renotified QUERIES cfg_sendgrid world_scenario
              (seen [job1]) (Some "v1") job1 H1 H2)))).
Defined.

(** C3.  A failed notification leaves the store alone.  When new results
    were found and sending them raises, the run ends with that exception
    and makes no write.  A later run that gets the same answers from the
    store and from the search starts from the same set and finds the same
    new results again. *)
Theorem failed_send_leaves_store queries cfg w s remote_sha e :
  preflight cfg = true ->
  result (load_state cfg w) = inr (s, remote_sha) ->
  found_results (final queries cfg w s) <> [] ->
  result (send_new cfg w (final queries cfg w s)) = inl e ->
  result (run_on queries cfg w) = inl e /\
  puts (trace (run_on queries cfg w)) = [] /\
  (forall w',
     store_get w' = store_get w -> (forall q, search w' q = search w q) ->
     result (load_state cfg w') = inr (s, remote_sha) /\
     found_results (final queries cfg w' s)
       = found_results (final queries cfg w s)).
Proof.
  intros Hp Hl Hne He. repeat split.
  - rewrite (run_on_loaded queries cfg w s remote_sha Hp Hl).
    by rewrite (notify_send_fail cfg w _ remote_sha e Hne He).
  - destruct (puts (trace (run_on queries cfg w))) as [|[l psha] ps] eqn:Hps;
      [done|].
    assert ((l, psha) ∈ puts (trace (run_on queries cfg w))) as Hin
      by (rewrite Hps; by left).
    apply run_on_puts in Hin as (s' & sha' & _ & Hl' & _ & Hok & _).
    rewrite Hl in Hl'. injection Hl' as <- <-. congruence.
  - by rewrite (load_state_ext cfg w w').
  - unfold final. rewrite (stream_ext cfg w w'); [done|].
    intros q _. by apply items_for_ext.
Qed.

Lemma failed_send_leaves_store_witness :
  preflight cfg_sendgrid = true /\
  result (load_state cfg_sendgrid world_send_fails)
    = inr (seen [job1], Some "v1") /\
  found_results (final QUERIES cfg_sendgrid world_send_fails (seen [job1]))
    <> [] /\
  result (send_new cfg_sendgrid world_send_fails
            (final QUERIES cfg_sendgrid world_send_fails (seen [job1])))
    = inl (HTTPError 500) /\
  result (run cfg_sendgrid world_send_fails) = inl (HTTPError 500) /\
  puts (trace (run cfg_sendgrid world_send_fails)) = [].
Proof.
  assert (preflight cfg_sendgrid = true) as H1 by reflexivity.
  assert (result (load_state cfg_sendgrid world_send_fails)
          = inr (seen [job1], Some "v1")) as H2 by (vm_compute; reflexivity).
  assert (found_results
            (final QUERIES cfg_sendgrid world_send_fails (seen [job1]))
          <> []) as H3 by (vm_compute; discriminate).
  assert (result (send_new cfg_sendgrid world_send_fails
                    (final QUERIES cfg_sendgrid world_send_fails
                       (seen [job1])))
          = inl (HTTPError 500)) as H4 by (vm_compute; reflexivity).
  destruct (failed_send_leaves_store QUERIES cfg_sendgrid world_send_fails
              (seen [job1]) (Some "v1") (HTTPError 500) H1 H2 H3 H4)
    as (C1 & C2 & _).
  exact (conj H1 (conj H2 (conj H3 (conj H4 (conj C1 C2))))).
Defined.

(** C4.  The no-op path.  When every returned item lacks a link or
    carries a link of the fetched set (in particular when nothing is
    returned), no new result is found and the run ends successfully
    having made the fetch and the searches only: no notification and no
    write, so the stored list and its [sha] stay as they are. *)
Theorem nothing_new_no_effects queries cfg w s remote_sha :
  preflight cfg = true ->
  result (load_state cfg w) = inr (s, remote_sha) ->
  Forall (fun p => truthy (item_link p.2) = false \/
                   py_str (item_link p.2) ∈ strs s)
    (stream cfg w queries) ->
  found_results (final queries cfg w s) = [] /\
  run_on queries cfg w
    = (get_event cfg :: (search_event cfg <$> queries), inr tt) /\
  mails (trace (run_on queries cfg w)) = [] /\
  puts (trace (run_on queries cfg w)) = [].
Proof.
  intros Hp Hl Hall.
  assert (found_results (final queries cfg w s) = []) as Hnil.
  { apply scan_nothing_new. intros q it Hin.
    by apply (proj1 (Forall_forall _ _) Hall (q, it)). }
  assert (run_on queries cfg w
          = (get_event cfg :: (search_event cfg <$> queries), inr tt)) as Hrun.
  { rewrite (run_on_loaded queries cfg w s remote_sha Hp Hl).
    rewrite (notify_nothing cfg w _ remote_sha Hnil). simpl.
    by rewrite app_nil_r. }
  repeat split; try done; rewrite Hrun; unfold trace; simpl.
  - clear. unfold mails. simpl. induction queries; [done|]. by simpl.
  - clear. unfold puts. simpl. induction queries; [done|]. by simpl.
Qed.

Lemma nothing_new_no_effects_witness :
  preflight cfg_sendgrid = true /\
  result (load_state cfg_sendgrid world_nothing_new)
    = inr (seen [job1; job2], Some "v2") /\
  run cfg_sendgrid world_nothing_new
    = (get_event cfg_sendgrid :: (search_event cfg_sendgrid <$> QUERIES),
       inr tt).
Proof.
  assert (preflight cfg_sendgrid = true) as H1 by reflexivity.
  assert (result (load_state cfg_sendgrid world_nothing_new)
          = inr (seen [job1; job2], Some "v2")) as H2
    by (vm_compute; reflexivity).
  assert (Forall (fun p : string * Item =>
                    truthy (item_link p.2) = false \/
                    py_str (item_link p.2) ∈ strs (seen [job1; job2]))
            (stream cfg_sendgrid world_nothing_new QUERIES)) as H3
    by (apply (bool_decide_unpack _); vm_compute; exact I).
  exact (conj H1 (conj H2
    (proj1 (proj2 (nothing_new_no_effects QUERIES cfg_sendgrid
                     world_nothing_new (seen [job1; job2]) (Some "v2")
                     H1 H2 H3))))).
Defined.

(** For a status that is neither 200 nor an error status the file counts
    as absent as well: [raise_for_status] lets it pass and the function
    falls through to [return None]. *)
Lemma get_repo_file_other_status cfg w status body path :
  store_get w = Http status body ->
  status <> 200 -> ~ (400 <= status < 600) ->
  get_repo_file cfg w path
    = ([GetRepo (api_url cfg path) (headers cfg)], inr None).
Proof.
  intros Hw H200 Herr. unfold get_repo_file, request, raise_for_status.
  rewrite Hw. simpl.
  destruct (Z.eqb_spec status 200) as [|_]; [done|].
  destruct (Z.eqb_spec status 404) as [|_]; [done|].
  destruct (Z.leb_spec 400 status), (Z.ltb_spec status 600); simpl;
    try done; lia.
Qed.

(** The fetch on 404 and on an error status.  When the store answers 404
    the fetch returns no file, which the program turns into the empty set
    of seen links and no [sha], without any exception.  When the store
    answers another error status (4xx or 5xx) the fetch raises, and so
    does the run. *)
Theorem fetch_absent_or_error cfg w status body :
  store_get w = Http status body ->
  (status = 404 ->
     get_repo_file cfg w (FILE_PATH cfg) = ([get_event cfg], inr None) /\
     load_sent_links cfg w = ([get_event cfg], inr []) /\
     load_state cfg w
       = ([get_event cfg], inr ({| strs := ∅; foreign := false |}, None))) /\
  (400 <= status < 600 -> status <> 404 ->
     result (get_repo_file cfg w (FILE_PATH cfg)) = inl (HTTPError status) /\
     result (load_sent_links cfg w) = inl (HTTPError status) /\
     result (load_state cfg w) = inl (HTTPError status) /\
     forall queries,
       preflight cfg = true ->
       run_on queries cfg w = ([get_event cfg], inl (HTTPError status))).
Proof.
  intros Hw. split.
  - intros ->. unfold load_state, load_sent_links, get_repo_file, request.
    by rewrite Hw.
  - intros Hrange Hne.
    assert (get_repo_file cfg w (FILE_PATH cfg)
            = ([get_event cfg], inl (HTTPError status))) as Hget.
    { unfold get_repo_file, request, raise_for_status. rewrite Hw. simpl.
      destruct (Z.eqb_spec status 200) as [|_]; [lia|].
      destruct (Z.eqb_spec status 404) as [|_]; [done|].
      destruct (Z.leb_spec 400 status), (Z.ltb_spec status 600); simpl;
        try done; lia. }
    assert (result (load_state cfg w) = inl (HTTPError status)) as Hload.
    { unfold load_state. by rewrite Hget. }
    repeat split.
    + by rewrite Hget.
    + unfold load_sent_links. by rewrite Hget.
    + done.
    + intros queries Hp. by apply run_on_load_fail.
Qed.

Lemma fetch_absent_or_error_witness :
  (store_get world_absent = Http 404 None /\
   load_state cfg_sendgrid world_absent
     = ([get_event cfg_sendgrid],
        inr ({| strs := ∅; foreign := false |}, None))) /\
  (store_get world_store_down = Http 503 None /\
   400 <= 503 < 600 /\ 503 <> 404 /\
   run cfg_sendgrid world_store_down
     = ([get_event cfg_sendgrid], inl (HTTPError 503))).
Proof.
  assert (400 <= 503 < 600) as H1 by lia.
  assert (503 <> 404) as H2 by lia.
  exact (conj
    (conj eq_refl
       (proj2 (proj2 (proj1 (fetch_absent_or_error cfg_sendgrid
                               world_absent 404 None eq_refl) eq_refl))))
    (conj eq_refl (conj H1 (conj H2
       (proj2 (proj2 (proj2 (proj2 (fetch_absent_or_error cfg_sendgrid
                 world_store_down 503 None eq_refl) H1 H2)))
          QUERIES eq_refl))))).
Defined.

(** C5.  The fetch on a status that is neither 200, nor 404, nor an error
    status.  [raise_for_status] raises on 4xx and 5xx only, so on a 304
    [get_repo_file] falls through to its last line and returns [None],
    as it does for a file that was not found: no exception is raised, the
    run starts from the empty set with no [sha], mails [job2] and writes
    the list [job2] alone without a [sha].  Hence it is not true that the
    fetch fails on every answer that is neither a success (2xx) nor
    404. *)
Lemma fetch_not_modified_reads_as_absent :
  store_get world_not_modified = Http 304 None /\
  get_repo_file cfg_sendgrid world_not_modified (FILE_PATH cfg_sendgrid)
    = ([get_event cfg_sendgrid], inr None) /\
  load_state cfg_sendgrid world_not_modified
    = ([get_event cfg_sendgrid],
       inr ({| strs := ∅; foreign := false |}, None)) /\
  result (run cfg_sendgrid world_not_modified) = inr tt /\
  puts (trace (run cfg_sendgrid world_not_modified)) = [([job2], None)] /\
  ~ (forall cfg w status body,
       store_get w = Http status body ->
       ~ (200 <= status < 300) -> status <> 404 ->
       exists e, result (get_repo_file cfg w (FILE_PATH cfg)) = inl e).
Proof.
  split; [reflexivity|]. split; [reflexivity|]. split; [reflexivity|].
  split; [by vm_compute|]. split; [by vm_compute|].
  intros H.
  destruct (H cfg_sendgrid world_not_modified 304 None eq_refl) as [e He];
    [lia|lia|].
  vm_compute in He. discriminate.
Qed.

Lemma items_for_answer_empty cfg w q q' :
  items_for cfg w q = [] ->
  items_for cfg (answer_empty q w) q' = items_for cfg w q'.
Proof.
  intros Hq. destruct (String.eqb_spec q' q) as [->|Hne].
  - rewrite Hq. unfold items_for, google_custom_search, request,
      raise_for_status. simpl. rewrite String.eqb_refl.
    by destruct (negb (truthy (GCP_API_KEY cfg))
                 || negb (truthy (CSE_ID cfg))).
  - apply items_for_ext. simpl.
    by rewrite (proj2 (String.eqb_neq q' q) Hne).
Qed.

(** C6.  A failing query is tolerated.  When the search call of a query
    raises, the loop gets no item for it, and the whole run (requests
    made, result or exception) is the run in which that query was answered
    by an empty result page: the other queries are still issued and their
    results used.  In particular, once the state is loaded, every query is
    sent and the run ends the way the notification and the write end. *)
Theorem failed_query_is_empty queries cfg w q e :
  result (google_custom_search cfg w q 1) = inl e ->
  items_for cfg w q = [] /\
  run_on queries cfg w = run_on queries cfg (answer_empty q w) /\
  (forall s remote_sha,
     preflight cfg = true ->
     result (load_state cfg w) = inr (s, remote_sha) ->
     run_on queries cfg w =
       (get_event cfg :: (search_event cfg <$> queries) ++
          trace (notify_and_save cfg w (final queries cfg w s) remote_sha),
        result (notify_and_save cfg w (final queries cfg w s) remote_sha))).
Proof.
  intros He.
  assert (items_for cfg w q = []) as Hq by (unfold items_for; by rewrite He).
  split; [done|]. split.
  - symmetry. apply run_on_ext. intros st. f_equal.
    apply stream_ext. intros q' _. by apply items_for_answer_empty.
  - intros s remote_sha Hp Hl. by apply run_on_loaded.
Qed.

Lemma failed_query_is_empty_witness :
  result (google_custom_search cfg_sendgrid world_query_fails query1 1)
    = inl ConnectionError /\
  run cfg_sendgrid world_query_fails
    = run cfg_sendgrid (answer_empty query1 world_query_fails).
Proof.
  assert (result (google_custom_search cfg_sendgrid world_query_fails
                    query1 1) = inl ConnectionError) as H1
    by (vm_compute; reflexivity).
  exact (conj H1
    (proj1 (proj2 (failed_query_is_empty QUERIES cfg_sendgrid
                     world_query_fails query1 ConnectionError H1)))).
Defined.

(** What the run does in that world: both searches are made, the mail has
    the one entry of the second query and the list is written. *)
Example run_world_query_fails :
  result (run cfg_sendgrid world_query_fails) = inr tt /\
  mails (trace (run cfg_sendgrid world_query_fails))
    = [("Daily job search — 2024-05-01 — 1 new",
        build_email_html "2024-05-01" [entry query2 item_job2])] /\
  puts (trace (run cfg_sendgrid world_query_fails))
    = [([job1; job2], Some "v1")].
Proof. by vm_compute. Qed.

(** ** Missing configuration *)

Lemma send_email_not_ready cfg w subject html text :
  transport_ready cfg = false ->
  send_email cfg w subject html text = ([], inl smtp_unset).
Proof.
  unfold transport_ready, send_email, send_email_smtp.
  intros [H1 H2]%orb_false_iff. rewrite H1.
  destruct (truthy (SMTP_HOST cfg)), (truthy (SMTP_USER cfg)),
    (truthy (SMTP_PASS cfg)); simpl in *; done.
Qed.

(** C7 as stated fails.  With the search credentials and both addresses
    set but no transport credential, the run fetches the state and sends
    both searches before the missing SMTP settings raise; and when nothing
    new is found the run ends successfully without noticing them. *)
Lemma missing_transport_found_late :
  config_complete cfg_no_transport = false /\
  run cfg_no_transport world_absent
    = ([get_event cfg_no_transport; search_event cfg_no_transport query1;
        search_event cfg_no_transport query2], inl smtp_unset) /\
  run cfg_no_transport world_nothing_new
    = ([get_event cfg_no_transport; search_event cfg_no_transport query1;
        search_event cfg_no_transport query2], inr tt) /\
  ~ (forall cfg w, config_complete cfg = false ->
       exists e, run cfg w = ([], inl e)).
Proof.
  split; [reflexivity|]. split; [by vm_compute|]. split; [by vm_compute|].
  intros H. destruct (H cfg_no_transport world_absent eq_refl) as [e He].
  vm_compute in He. discriminate.
Qed.

(** C7, amended.  A missing search credential or sender or recipient
    address is a startup error: the run raises before any request.  A
    missing credential of the selected transport is not checked at
    startup: the run never sends or writes, and once the state is loaded
    it makes the fetch and all searches and then raises if there is
    something to send, and ends successfully if there is not. *)
Theorem missing_config_detection queries cfg w :
  (preflight cfg = false ->
     exists msg, run_on queries cfg w = ([], inl (RuntimeError msg))) /\
  (preflight cfg = true -> transport_ready cfg = false ->
     mails (trace (run_on queries cfg w)) = [] /\
     puts (trace (run_on queries cfg w)) = [] /\
     forall s remote_sha,
       result (load_state cfg w) = inr (s, remote_sha) ->
       run_on queries cfg w =
         (get_event cfg :: (search_event cfg <$> queries),
          match found_results (final queries cfg w s) with
          | [] => inr tt
          | _ => inl smtp_unset
          end)).
Proof.
  split; [apply run_on_rejected|]. intros Hp Hnr.
  assert (forall s remote_sha,
            result (load_state cfg w) = inr (s, remote_sha) ->
            run_on queries cfg w =
              (get_event cfg :: (search_event cfg <$> queries),
               match found_results (final queries cfg w s) with
               | [] => inr tt
               | _ => inl smtp_unset
               end)) as Hrun.
  { intros s remote_sha Hl.
    rewrite (run_on_loaded queries cfg w s remote_sha Hp Hl).
    destruct (found_results (final queries cfg w s)) as [|r rs] eqn:Hf.
    - rewrite notify_nothing by done. simpl. by rewrite app_nil_r.
    - assert (send_new cfg w (final queries cfg w s) = ([], inl smtp_unset))
        as Hs by by apply send_email_not_ready.
      rewrite (notify_send_fail cfg w _ remote_sha smtp_unset);
        [|by rewrite Hf|by rewrite Hs].
      rewrite Hs. simpl. by rewrite app_nil_r. }
  destruct (fetch_and_searches_silent cfg queries) as [Hm Hpu].
  destruct (result (load_state cfg w)) as [e|[s remote_sha]] eqn:Hl.
  - rewrite (run_on_load_fail queries cfg w e Hp Hl). repeat split; try done.
  - rewrite (Hrun s remote_sha eq_refl). unfold trace. simpl fst.
    split; [done|]. split; [done|].
    intros s' sha' [= <- <-]. done.
Qed.

Lemma missing_config_detection_witness :
  (preflight cfg_no_engine = false /\
   exists msg, run cfg_no_engine world_scenario = ([], inl (RuntimeError msg)))
  /\
  (preflight cfg_no_transport = true /\
   transport_ready cfg_no_transport = false /\
   result (load_state cfg_no_transport world_absent) = inr (seen [], None) /\
   run cfg_no_transport world_absent
     = (get_event cfg_no_transport
          :: (search_event cfg_no_transport <$> QUERIES),
        match found_results
                (final QUERIES cfg_no_transport world_absent (seen [])) with
        | [] => inr tt
        | _ => inl smtp_unset
        end)).
Proof.
  assert (result (load_state cfg_no_transport world_absent)
          = inr (seen [], None)) as H3 by reflexivity.
  exact (conj
    (conj eq_refl
       (proj1 (missing_config_detection QUERIES cfg_no_engine world_scenario)
          eq_refl))
    (conj eq_refl (conj eq_refl (conj H3
       (proj2 (proj2 (proj2 (missing_config_detection QUERIES
                 cfg_no_transport world_absent) eq_refl eq_refl))
          (seen []) None H3))))).
Defined.

(** ** The stored blob *)

Lemma existing_links_of_unusable f :
  (forall l, content f <> Parsed (JArr l)) -> existing_links_of (Some f) = [].
Proof.
  intros H. unfold existing_links_of.
  destruct (content f) as [| |[]]; try done. by destruct (H l).
Qed.

Lemma get_repo_file_200 cfg w f path :
  store_get w = Http 200 (Some f) ->
  get_repo_file cfg w path
    = ([GetRepo (api_url cfg path) (headers cfg)], inr (Some f)).
Proof. intros Hw. unfold get_repo_file, request. by rewrite Hw. Qed.

(** Two files with the same [sha] and the same decoded list give the same
    run. *)
Lemma run_on_same_list queries cfg w f f' :
  store_get w = Http 200 (Some f) ->
  sha f' = sha f ->
  existing_links_of (Some f') = existing_links_of (Some f) ->
  run_on queries cfg (with_store (Http 200 (Some f')) w)
    = run_on queries cfg w.
Proof.
  intros Hw Hsha Hex. unfold run_on.
  repeat (case_match; [done|]).
  rewrite (get_repo_file_200 cfg w f) by done.
  rewrite (get_repo_file_200 cfg _ f') by done.
  rewrite !bind_ok. unfold remote_sha_of. rewrite Hex, Hsha.
  destruct (py_set (existing_links_of (Some f))) as [t [e|s]]; [done|].
  rewrite !bind_ok, !search_all_eq. simpl.
  assert (stream cfg (with_store (Http 200 (Some f')) w) queries
          = stream cfg w queries) as ->.
  { apply stream_ext. intros q _. by apply items_for_ext. }
  assert (flat_map (search_trace cfg (with_store (Http 200 (Some f')) w))
            queries = flat_map (search_trace cfg w) queries) as ->; [|done].
  clear. induction queries as [|q queries IH]; [done|].
  simpl. by rewrite IH, (search_trace_any cfg _ w).
Qed.

(** C8.  A malformed stored blob counts as empty.  When the content of
    the fetched file is not valid JSON, or is JSON that is not an array,
    the decoded list is empty: [load_sent_links] returns the empty list,
    the run starts from the empty set with the [sha] of the file, and the
    whole run is the one it would be had the file held the empty array. *)
Theorem malformed_blob_is_empty cfg w f :
  store_get w = Http 200 (Some f) ->
  malformed_or_non_array (content f) = true ->
  existing_links_of (Some f) = [] /\
  load_sent_links cfg w = ([get_event cfg], inr []) /\
  load_state cfg w
    = ([get_event cfg], inr ({| strs := ∅; foreign := false |}, sha f)) /\
  forall queries,
    run_on queries cfg w
      = run_on queries cfg
          (with_store
             (Http 200 (Some {| sha := sha f; content := Parsed (JArr []) |}))
             w).
Proof.
  intros Hw Hbad.
  assert (existing_links_of (Some f) = []) as Hex.
  { apply existing_links_of_unusable. intros l Hl. by rewrite Hl in Hbad. }
  split; [done|]. split; [|split].
  - unfold load_sent_links, get_event.
    rewrite (get_repo_file_200 cfg w f) by done. rewrite bind_ok.
    by destruct (content f) as [| |[]].
  - unfold load_state, get_event.
    rewrite (get_repo_file_200 cfg w f) by done. rewrite bind_ok, Hex.
    reflexivity.
  - intros queries. symmetry. by apply (run_on_same_list queries cfg w f).
Qed.

Lemma malformed_blob_is_empty_witness :
  store_get world_bad_blob
    = Http 200 (Some {| sha := Some "v7"; content := BadJson |}) /\
  malformed_or_non_array BadJson = true /\
  load_state cfg_sendgrid world_bad_blob
    = ([get_event cfg_sendgrid],
       inr ({| strs := ∅; foreign := false |}, Some "v7")).
Proof.
  exact (conj eq_refl (conj eq_refl
    (proj1 (proj2 (proj2 (malformed_blob_is_empty cfg_sendgrid world_bad_blob
                            {| sha := Some "v7"; content := BadJson |}
                            eq_refl eq_refl)))))).
Defined.

(** In that world the run mails [job2] and writes the list [job2] alone,
    with the [sha] of the file it could not read. *)
Example run_world_bad_blob :
  result (run cfg_sendgrid world_bad_blob) = inr tt /\
  puts (trace (run cfg_sendgrid world_bad_blob)) = [([job2], Some "v7")].
Proof. by vm_compute. Qed.

(** Content that is not base64 or not UTF-8 is caught by [run] as well,
    but not by [load_sent_links], which decodes outside its [try]. *)
Lemma not_text_blob cfg w f :
  store_get w = Http 200 (Some f) -> content f = NotText ->
  existing_links_of (Some f) = [] /\
  result (load_sent_links cfg w) = inl ValueError.
Proof.
  intros Hw Hc. split.
  - apply existing_links_of_unusable. intros l. by rewrite Hc.
  - unfold load_sent_links. rewrite (get_repo_file_200 cfg w f) by done.
    rewrite bind_ok. by rewrite Hc.
Qed.

(** C9.  What is persisted is the sorted listing of a set.  Every list
    the run writes is in ascending string order and without duplicates:
    it is the sorted listing of the in-memory set at the end of the loop,
    whatever state was fetched and whatever the searches returned. *)
Theorem persisted_list_sorted queries cfg w new_list payload_sha :
  (new_list, payload_sha) ∈ puts (trace (run_on queries cfg w)) ->
  StronglySorted str_le new_list /\
  NoDup new_list /\
  exists S : gset string,
    new_list = merge_sort str_le (elements S) /\
    forall l, l ∈ new_list <-> l ∈ S.
Proof.
  intros (s & sha' & _ & _ & _ & _ & _ & -> & _)%run_on_puts.
  split; [apply listing_sorted|]. split; [apply listing_NoDup|].
  eexists. split; [done|]. intros l. apply listing_elem_of.
Qed.

Lemma persisted_list_sorted_witness :
  ([job1; job2], Some "v1") ∈ puts (trace (run cfg_sendgrid world_scenario))
  /\ StronglySorted str_le [job1; job2] /\ NoDup [job1; job2].
Proof.
  assert (([job1; job2], Some "v1")
            ∈ puts (trace (run cfg_sendgrid world_scenario))) as H
    by (apply (bool_decide_unpack _); vm_compute; exact I).
  destruct (persisted_list_sorted QUERIES cfg_sendgrid world_scenario
              [job1; job2] (Some "v1") H) as (C1 & C2 & _).
  exact (conj H (conj C1 C2)).
Defined.

(** ** Items without a link *)

Lemma items_for_drop_linkless cfg w q :
  items_for cfg (drop_linkless w) q
    = filter (fun it => truthy (item_link it) = true) (items_for cfg w q).
Proof.
  unfold items_for, google_custom_search, request, raise_for_status. simpl.
  destruct (negb (truthy (GCP_API_KEY cfg)) || negb (truthy (CSE_ID cfg)));
    [done|].
  destruct (search w q) as [|status [items|]]; simpl; [done|..];
    by destruct ((400 <=? status) && (status <? 600)).
Qed.

Lemma filter_has_link_pairs (q : string) (items : list Item) :
  filter (fun p => has_link p = true) (pair q <$> items)
    = pair q <$> filter (fun it => truthy (item_link it) = true) items.
Proof.
  induction items as [|it items IH]; [done|].
  rewrite fmap_cons. destruct (truthy (item_link it)) eqn:Ht.
  - rewrite !filter_cons_True by done. by rewrite fmap_cons, IH.
  - rewrite !filter_cons_False by (unfold has_link; simpl; congruence).
    done.
Qed.

Lemma stream_drop_linkless cfg w queries :
  stream cfg (drop_linkless w) queries
    = filter (fun p => has_link p = true) (stream cfg w queries).
Proof.
  unfold stream. induction queries as [|q queries IH]; [done|].
  simpl. rewrite filter_app, IH, items_for_drop_linkless.
  by rewrite filter_has_link_pairs.
Qed.

(** C10.  Items without a link are skipped.  Visiting an item whose link
    is absent or empty leaves the loop state as it is: nothing is added to
    the new results, to the set or to the added links.  No new result has
    an empty link.  And the whole run (requests, notification, write,
    result) is the run in which such items were never returned. *)
Theorem linkless_items_skipped :
  (forall q st it,
     item_link it = None \/ item_link it = Some "" -> visit q st it = st) /\
  (forall queries cfg w s,
     Forall (fun r => link r <> "") (found_results (final queries cfg w s))) /\
  (forall queries cfg w,
     run_on queries cfg (drop_linkless w) = run_on queries cfg w).
Proof.
  repeat split.
  - intros q st it H. apply visit_skip. left. by destruct H as [-> | ->].
  - intros queries cfg w s.
    pose proof (Inv_scan _ _ (stream cfg w queries) _ (Inv_start s))
      as [_ _ Hlk _ Hfr]. fold (final queries cfg w s) in Hlk, Hfr.
    apply Forall_forall. intros r Hr. apply (Hfr (link r)).
    rewrite <- Hlk. apply list_elem_of_fmap. by exists r.
  - intros queries cfg w. apply run_on_ext. intros st.
    pose proof (stream_drop_linkless cfg w queries) as Hst.
    unfold drop_linkless in Hst. rewrite Hst. apply scan_filter_has_link.
Qed.

Lemma linkless_items_skipped_witness :
  (item_link item_no_link = None \/ item_link item_no_link = Some "") /\
  visit query1 (start (seen [job1])) item_no_link = start (seen [job1]).
Proof.
  assert (item_link item_no_link = None \/ item_link item_no_link = Some "")
    as H by (left; reflexivity).
  exact (conj H (proj1 linkless_items_skipped query1 (start (seen [job1]))
                   item_no_link H)).
Defined.

(** * Further properties of the code *)

(** ** The mail transports *)

Lemma raise_for_status_eq status :
  raise_for_status status =
    if error_status status then raise (HTTPError status) else ret tt.
Proof. reflexivity. Qed.

(** X1.  One transport and no fallback.  When the SendGrid key is set,
    [send_email] makes exactly one request, the SendGrid POST, whatever the
    SMTP settings are and whatever SendGrid answers: no answer or an error
    status raises and SMTP is not tried.  When the key is not set SendGrid
    is never contacted. *)
Theorem send_email_one_transport cfg w subject html text :
  (truthy (SENDGRID_API_KEY cfg) = true ->
   trace (send_email cfg w subject html text)
     = [PostSendgrid (py_str (SENDGRID_API_KEY cfg)) (TO_EMAIL cfg)
          (FROM_EMAIL cfg) subject (py_or text "See HTML body") html] /\
   result (send_email cfg w subject html text)
     = match sendgrid w with
       | NoReply => inl ConnectionError
       | Http status _ =>
           if error_status status then inl (HTTPError status) else inr tt
       end) /\
  (truthy (SENDGRID_API_KEY cfg) = false ->
   Forall (fun ev => match ev with PostSendgrid _ _ _ _ _ _ => False
                     | _ => True end)
     (trace (send_email cfg w subject html text))).
Proof.
  unfold send_email. split; intros Hk; rewrite Hk.
  - unfold send_email_sendgrid, request. rewrite Hk. simpl.
    destruct (sendgrid w) as [|status []]; simpl; [done|].
    rewrite raise_for_status_eq. by destruct (error_status status).
  - unfold send_email_smtp.
    destruct (negb (truthy (SMTP_HOST cfg)) || negb (truthy (SMTP_USER cfg))
              || negb (truthy (SMTP_PASS cfg))); simpl; [constructor|].
    destruct (smtp w); simpl; by repeat constructor.
Qed.

Lemma send_email_one_transport_witness :
  truthy (SENDGRID_API_KEY cfg_both) = true /\
  result (send_email cfg_both world_send_fails "s" "h" None)
    = inl (HTTPError 500) /\
  trace (send_email cfg_both world_send_fails "s" "h" None)
    = [PostSendgrid "sg" (Some "to@example.org") (Some "from@example.org")
         "s" "See HTML body" "h"].
Proof.
  destruct (proj1 (send_email_one_transport cfg_both world_send_fails
                     "s" "h" None) eq_refl) as [Ht Hr].
  exact (conj eq_refl (conj Hr Ht)).
Defined.




(** ** The search call *)

(** X3.  The search call.  Without both credentials the call raises
    before making any request.  With them it makes exactly one request,
    for the query and the [start] it was given.  It returns items only
    when the answer has a status that is not an error status and a body
    that parses: the items of that body. *)
Theorem search_call_behaviour cfg w q start :
  (truthy (GCP_API_KEY cfg) && truthy (CSE_ID cfg) = false ->
   google_custom_search cfg w q start
     = ([], inl (RuntimeError "GCP_API_KEY and CSE_ID must be set."))) /\
  (truthy (GCP_API_KEY cfg) && truthy (CSE_ID cfg) = true ->
   trace (google_custom_search cfg w q start)
     = [GetSearch (py_str (GCP_API_KEY cfg)) (py_str (CSE_ID cfg)) q start])
  /\
  (forall items,
     result (google_custom_search cfg w q start) = inr items ->
     exists status,
       search w q = Http status (Some items) /\ error_status status = false).
Proof.
  unfold google_custom_search, request. repeat split.
  - intros H. by destruct (truthy (GCP_API_KEY cfg)), (truthy (CSE_ID cfg)).
  - intros [-> ->]%andb_true_iff. simpl.
    destruct (search w q) as [|status [its|]]; simpl; [done|..];
      rewrite raise_for_status_eq; by destruct (error_status status).
  - intros items.
    destruct (negb (truthy (GCP_API_KEY cfg)) || negb (truthy (CSE_ID cfg)));
      [done|].
    destruct (search w q) as [|status [its|]]; simpl; [done|..];
      rewrite raise_for_status_eq; destruct (error_status status) eqn:He;
      simpl; try done.
    intros [= ->]. by exists status.
Qed.

Lemma search_call_behaviour_witness :
  (truthy (GCP_API_KEY cfg_no_engine) && truthy (CSE_ID cfg_no_engine) = false
   /\ trace (google_custom_search cfg_no_engine world_scenario query1 1) = [])
  /\
  (result (google_custom_search cfg_sendgrid world_scenario query2 1)
     = inr [item job2 None None] /\
   exists status,
     search world_scenario query2 = Http status (Some [item job2 None None])
     /\ error_status status = false).
Proof.
  assert (result (google_custom_search cfg_sendgrid world_scenario query2 1)
          = inr [item job2 None None]) as H by (vm_compute; reflexivity).
  exact (conj
    (conj eq_refl
       (f_equal fst (proj1 (search_call_behaviour cfg_no_engine world_scenario
                              query1 1) eq_refl)))
    (conj H
       (proj2 (proj2 (search_call_behaviour cfg_sendgrid world_scenario
                        query2 1)) _ H))).
Defined.

(** ** The order of the requests of a run *)

Lemma send_email_ok_mails cfg w subject html text :
  result (send_email cfg w subject html text) = inr tt ->
  mails (trace (send_email cfg w subject html text)) = [(subject, html)].
Proof.
  unfold send_email, send_email_sendgrid, send_email_smtp, request.
  repeat (case_match; simpl; try done);
    rewrite raise_for_status_eq; by case_match.
Qed.

Lemma notify_sent cfg w st remote_sha :
  found_results st <> [] ->
  result (send_new cfg w st) = inr tt ->
  notify_and_save cfg w st remote_sha =
    if foreign (sent_set st)
    then (trace (send_new cfg w st), inl TypeError)
    else
      (trace (send_new cfg w st) ++
         trace (save_sent_links cfg w (listing (strs (sent_set st)))
                  remote_sha),
       result (save_sent_links cfg w (listing (strs (sent_set st)))
                 remote_sha)).
Proof.
  intros Hne Hok. rewrite notify_unfold by done. unfold py_sorted.
  destruct (send_new cfg w st) as [t [e|[]]]; simpl in *; [done|].
  destruct (foreign (sent_set st)); simpl; [by rewrite app_nil_r|].
  reflexivity.
Qed.

Lemma final_foreign queries cfg w s :
  foreign (sent_set (final queries cfg w s)) = foreign s.
Proof.
  by destruct (Inv_scan _ _ (stream cfg w queries) _ (Inv_start s)).
Qed.

Lemma notify_no_search cfg w st remote_sha :
  search_requests (trace (notify_and_save cfg w st remote_sha)) = [] /\
  repo_requests (trace (notify_and_save cfg w st remote_sha))
    = (fun p => (api_url cfg (FILE_PATH cfg), headers cfg))
        <$> puts (trace (notify_and_save cfg w st remote_sha)).
Proof.
  unfold notify_and_save, send_email, send_email_sendgrid, send_email_smtp,
    py_sorted, save_sent_links, create_or_update_repo_file, request.
  repeat (case_match; simpl; try done);
    rewrite ?raise_for_status_eq; repeat (case_match; simpl; try done).
Qed.

(** X4.  The write comes last and after the mail.  Whenever a run writes
    the list, the PUT is the last request of the run, it is the only
    write, and exactly one mail was handed to a transport before it. *)
Theorem write_is_last_after_mail queries cfg w new_list payload_sha :
  (new_list, payload_sha) ∈ puts (trace (run_on queries cfg w)) ->
  exists pre url auth message subject html,
    trace (run_on queries cfg w)
      = pre ++ [PutRepo url auth message new_list payload_sha] /\
    puts pre = [] /\
    mails pre = [(subject, html)].
Proof.
  intros (s & sha' & Hp & Hl & Hne & Hok & Hfo & -> & ->)%run_on_puts.
  rewrite (run_on_loaded queries cfg w s sha' Hp Hl).
  rewrite (notify_sent cfg w _ sha' Hne Hok), final_foreign, Hfo.
  destruct (save_sent_links_trace cfg w
    (listing (strs (sent_set (final queries cfg w s)))) sha')
    as (url & auth & msg & Ht).
  unfold trace at 1. simpl fst. rewrite Ht.
  exists (get_event cfg :: (search_event cfg <$> queries)
          ++ trace (send_new cfg w (final queries cfg w s))).
  exists url, auth, msg, (mail_subject w (final queries cfg w s)),
    (mail_html w (final queries cfg w s)).
  destruct (fetch_and_searches_silent cfg queries) as [Hm Hpu].
  split; [simpl; by rewrite app_assoc|].
  change (get_event cfg :: (search_event cfg <$> queries) ++ ?t)
    with ((get_event cfg :: (search_event cfg <$> queries)) ++ t).
  rewrite puts_app, mails_app, Hm, Hpu. split.
  - apply send_email_puts.
  - by apply send_email_ok_mails.
Qed.

Lemma write_is_last_after_mail_witness :
  ([job1; job2], Some "v1") ∈ puts (trace (run cfg_sendgrid world_scenario))
  /\
  exists pre url auth message subject html,
    trace (run cfg_sendgrid world_scenario)
      = pre ++ [PutRepo url auth message [job1; job2] (Some "v1")] /\
    puts pre = [] /\
    mails pre = [(subject, html)].
Proof.
  assert (([job1; job2], Some "v1")
            ∈ puts (trace (run cfg_sendgrid world_scenario))) as H
    by (apply (bool_decide_unpack _); vm_compute; exact I).
  exact (conj H (write_is_last_after_mail QUERIES cfg_sendgrid world_scenario
                   [job1; job2] (Some "v1") H)).
Defined.

(** X5.  A rejected write is fatal, after the mail.  When the new
    results were mailed and the store answers the PUT with an error
    status, the run ends with that HTTP error; the mail has gone out and
    the one write was attempted, with the fetched [sha]. *)
Theorem failed_write_after_mail queries cfg w s remote_sha status body :
  preflight cfg = true ->
  result (load_state cfg w) = inr (s, remote_sha) ->
  found_results (final queries cfg w s) <> [] ->
  result (send_new cfg w (final queries cfg w s)) = inr tt ->
  foreign s = false ->
  store_put w = Http status body -> error_status status = true ->
  result (run_on queries cfg w) = inl (HTTPError status) /\
  mails (trace (run_on queries cfg w))
    = [(mail_subject w (final queries cfg w s),
        mail_html w (final queries cfg w s))] /\
  puts (trace (run_on queries cfg w))
    = [(listing (strs (sent_set (final queries cfg w s))),
        payload_sha_of remote_sha)].
Proof.
  intros Hp Hl Hne Hok Hfo Hput Herr.
  split; [|split; [|by apply run_on_written]].
  - rewrite (run_on_loaded queries cfg w s remote_sha Hp Hl).
    rewrite (notify_sent cfg w _ remote_sha Hne Hok), final_foreign, Hfo.
    unfold result, save_sent_links, create_or_update_repo_file, request.
    rewrite Hput. simpl. rewrite raise_for_status_eq. by rewrite Herr.
  - rewrite (run_on_loaded queries cfg w s remote_sha Hp Hl).
    rewrite (notify_sent cfg w _ remote_sha Hne Hok), final_foreign, Hfo.
    destruct (save_sent_links_trace cfg w
      (listing (strs (sent_set (final queries cfg w s)))) remote_sha)
      as (url & auth & msg & Ht).
    unfold trace at 1. simpl fst. rewrite Ht.
    change (get_event cfg :: (search_event cfg <$> queries) ++ ?t)
      with ((get_event cfg :: (search_event cfg <$> queries)) ++ t).
    rewrite !mails_app, (proj1 (fetch_and_searches_silent cfg queries)).
    simpl. rewrite app_nil_r. by apply send_email_ok_mails.
Qed.

Lemma failed_write_after_mail_witness :
  preflight cfg_sendgrid = true /\
  result (load_state cfg_sendgrid world_put_conflict)
    = inr (seen [job1], Some "v1") /\
  store_put world_put_conflict = Http 409 true /\
  result (run cfg_sendgrid world_put_conflict) = inl (HTTPError 409) /\
  puts (trace (run cfg_sendgrid world_put_conflict))
    = [(listing (strs (sent_set
          (final QUERIES cfg_sendgrid world_put_conflict (seen [job1])))),
        payload_sha_of (Some "v1"))].
Proof.
  assert (result (load_state cfg_sendgrid world_put_conflict)
          = inr (seen [job1], Some "v1")) as H2 by (vm_compute; reflexivity).
  assert (found_results
            (final QUERIES cfg_sendgrid world_put_conflict (seen [job1]))
          <> []) as H3 by (vm_compute; discriminate).
  assert (result (send_new cfg_sendgrid world_put_conflict
                    (final QUERIES cfg_sendgrid world_put_conflict
                       (seen [job1]))) = inr tt) as H4
    by (vm_compute; reflexivity).
  destruct (failed_write_after_mail QUERIES cfg_sendgrid world_put_conflict
              (seen [job1]) (Some "v1") 409 true eq_refl H2 H3 H4 eq_refl
              eq_refl eq_refl) as (C1 & _ & C3).
  exact (conj eq_refl (conj H2 (conj eq_refl (conj C1 C3)))).
Defined.

(** X6.  The first write is a create.  When the file does not exist (the
    store answers 404) and new results were mailed, the run writes once,
    without any [sha] in the payload, and the list written holds exactly
    the links of the new results. *)
Theorem first_run_creates queries cfg w body :
  preflight cfg = true ->
  store_get w = Http 404 body ->
  found_results (final queries cfg w (seen [])) <> [] ->
  result (send_new cfg w (final queries cfg w (seen []))) = inr tt ->
  exists new_list,
    puts (trace (run_on queries cfg w)) = [(new_list, None)] /\
    forall l,
      l ∈ new_list <-> l ∈ link <$> found_results (final queries cfg w (seen [])).
Proof.
  intros Hp Hw Hne Hok.
  assert (result (load_state cfg w) = inr (seen [], None)) as Hl.
  { unfold load_state, get_repo_file, request. by rewrite Hw. }
  eexists. split.
  - by apply (run_on_written queries cfg w (seen []) None).
  - intros l. rewrite listing_elem_of.
    destruct (Inv_scan _ _ (stream cfg w queries) _ (Inv_start (seen [])))
      as [Hs _ Hlk _ _]. fold (final queries cfg w (seen [])) in Hs, Hlk.
    rewrite Hs, Hlk. simpl. set_solver.
Qed.

Lemma first_run_creates_witness :
  preflight cfg_sendgrid = true /\
  store_get world_absent = Http 404 None /\
  exists new_list,
    puts (trace (run cfg_sendgrid world_absent)) = [(new_list, None)] /\
    forall l,
      l ∈ new_list <->
      l ∈ link <$> found_results
                     (final QUERIES cfg_sendgrid world_absent (seen [])).
Proof.
  assert (found_results (final QUERIES cfg_sendgrid world_absent (seen []))
          <> []) as H3 by (vm_compute; discriminate).
  assert (result (send_new cfg_sendgrid world_absent
                    (final QUERIES cfg_sendgrid world_absent (seen [])))
          = inr tt) as H4 by (vm_compute; reflexivity).
  exact (conj eq_refl (conj eq_refl
    (first_run_creates QUERIES cfg_sendgrid world_absent None
       eq_refl eq_refl H3 H4))).
Defined.

(** X7.  One request per query, first page only.  Once the state is
    loaded, the run sends exactly one search request for each query, in
    the order of the list and with [start] 1, whatever the answers are:
    a failing query is not retried and no further page is asked for. *)
Theorem each_query_sent_once queries cfg w s remote_sha :
  preflight cfg = true ->
  result (load_state cfg w) = inr (s, remote_sha) ->
  search_requests (trace (run_on queries cfg w))
    = (fun q => (q, 1)) <$> queries.
Proof.
  intros Hp Hl. rewrite (run_on_loaded queries cfg w s remote_sha Hp Hl).
  unfold trace at 1. simpl fst.
  change (get_event cfg :: (search_event cfg <$> queries) ++ ?t)
    with ((get_event cfg :: (search_event cfg <$> queries)) ++ t).
  unfold search_requests. rewrite omap_app.
  fold (search_requests
          (trace (notify_and_save cfg w (final queries cfg w s) remote_sha))).
  rewrite (proj1 (notify_no_search cfg w _ remote_sha)), app_nil_r.
  clear. change (omap search_of (get_event cfg :: ?l))
    with (omap search_of l).
  induction queries as [|q queries IH]; [done|].
  rewrite !fmap_cons.
  change (omap search_of (search_event cfg q :: ?l))
    with ((q, 1) :: omap search_of l).
  by rewrite IH.
Qed.

Lemma each_query_sent_once_witness :
  preflight cfg_sendgrid = true /\
  result (load_state cfg_sendgrid world_all_fail)
    = inr (seen [job1], Some "v1") /\
  search_requests (trace (run cfg_sendgrid world_all_fail))
    = [(query1, 1); (query2, 1)].
Proof.
  assert (result (load_state cfg_sendgrid world_all_fail)
          = inr (seen [job1], Some "v1")) as H2 by (vm_compute; reflexivity).
  exact (conj eq_refl (conj H2
    (each_query_sent_once QUERIES cfg_sendgrid world_all_fail
       (seen [job1]) (Some "v1") eq_refl H2))).
Defined.

(** ** Writing the list and reading it back *)

Lemma py_set_strings (links : list string) :
  py_set (JStr <$> links) = ret (seen links).
Proof.
  unfold py_set, seen.
  assert (forallb hashable (JStr <$> links) = true) as ->.
  { induction links as [|l links IH]; [done|]. exact IH. }
  assert (omap as_str (JStr <$> links) = links) as ->.
  { induction links as [|l links IH]; [done|].
    change (l :: omap as_str (JStr <$> links) = l :: links). by f_equal. }
  assert (forallb (fun v => bool_decide (is_Some (as_str v)))
            (JStr <$> links) = true) as ->; [|done].
  induction links as [|l links IH]; [done|]. exact IH.
Qed.

Lemma load_state_stored cfg w links version :
  store_get w = stored links version ->
  load_state cfg w = ([get_event cfg], inr (seen links, Some version)).
Proof.
  intros Hw. unfold load_state, get_event.
  rewrite (get_repo_file_200 cfg w _ _ Hw), bind_ok. simpl.
  by rewrite py_set_strings.
Qed.

(** X8.  Writing and reading back.  Take the list a run computes for
    writing.  A later run that finds this list in the store, and gets the
    same search answers, loads it as its set of seen links, finds no new
    result, and so ends successfully after the fetch and the searches,
    without mail or write. *)
Theorem second_run_finds_nothing queries cfg w w' s remote_sha version :
  result (load_state cfg w) = inr (s, remote_sha) ->
  store_get w' =
    stored (listing (strs (sent_set (final queries cfg w s)))) version ->
  (forall q, search w' q = search w q) ->
  result (load_state cfg w')
    = inr (seen (listing (strs (sent_set (final queries cfg w s)))),
           Some version) /\
  found_results
    (final queries cfg w'
       (seen (listing (strs (sent_set (final queries cfg w s)))))) = [] /\
  (preflight cfg = true ->
   run_on queries cfg w'
     = (get_event cfg :: (search_event cfg <$> queries), inr tt)).
Proof.
  intros Hl Hw' Hsearch.
  assert (result (load_state cfg w')
          = inr (seen (listing (strs (sent_set (final queries cfg w s)))),
                 Some version)) as Hl'.
  { by rewrite (load_state_stored cfg w' _ version Hw'). }
  assert (found_results
            (final queries cfg w'
               (seen (listing (strs (sent_set (final queries cfg w s))))))
          = []) as Hnil.
  { unfold final at 1.
    rewrite (stream_ext cfg w w')
      by (intros q _; by apply items_for_ext).
    apply scan_nothing_new. intros q it Hin.
    destruct (truthy (item_link it)) eqn:Ht; [right|by left].
    destruct (truthy_true _ Ht) as (l & Hit & Hne). rewrite Hit. simpl.
    apply elem_of_list_to_set, listing_elem_of.
    by apply (scan_covers _ _ q it). }
  split; [done|]. split; [done|]. intros Hp.
  rewrite (run_on_loaded queries cfg w' _ _ Hp Hl').
  rewrite (notify_nothing cfg w' _ _ Hnil). simpl. by rewrite app_nil_r.
Qed.

Lemma second_run_finds_nothing_witness :
  result (load_state cfg_sendgrid world_scenario)
    = inr (seen [job1], Some "v1") /\
  store_get world_second_run
    = stored (listing (strs (sent_set
                (final QUERIES cfg_sendgrid world_scenario (seen [job1])))))
        "v2" /\
  (forall q, search world_second_run q = search world_scenario q) /\
  run cfg_sendgrid world_second_run
    = (get_event cfg_sendgrid :: (search_event cfg_sendgrid <$> QUERIES),
       inr tt).
Proof.
  assert (result (load_state cfg_sendgrid world_scenario)
          = inr (seen [job1], Some "v1")) as H1 by (vm_compute; reflexivity).
  assert (store_get world_second_run
          = stored (listing (strs (sent_set
                      (final QUERIES cfg_sendgrid world_scenario
                         (seen [job1]))))) "v2") as H2
    by (vm_compute; reflexivity).
  assert (forall q, search world_second_run q = search world_scenario q)
    as H3 by (intros q; reflexivity).
  exact (conj H1 (conj H2 (conj H3
    (proj2 (proj2 (second_run_finds_nothing QUERIES cfg_sendgrid
                     world_scenario world_second_run (seen [job1])
                     (Some "v1") "v2" H1 H2 H3)) eq_refl)))).
Defined.

(** ** The new results *)

Lemma scan_found_sublist ps : forall st,
  exists ext,
    found_results (scan st ps) = found_results st ++ ext /\
    ext `sublist_of` (entry_of <$> filter (fun p => has_link p = true) ps).
Proof.
  induction ps as [|[q it] ps IH]; intros st.
  - exists []. by rewrite app_nil_r.
  - rewrite scan_cons.
    destruct (IH (visit q st it)) as (ext & Hext & Hsub). rewrite Hext.
    destruct (visit_cases q st it) as [[-> _]|(l & Hit & Hne & _ & ->)].
    + exists ext. split; [done|].
      destruct (truthy (item_link it)) eqn:Ht.
      * rewrite filter_cons_True by done. rewrite fmap_cons.
        by apply sublist_cons.
      * by rewrite filter_cons_False
          by (unfold has_link; simpl; congruence).
    + exists (entry q it :: ext). simpl. split; [by rewrite <- app_assoc|].
      rewrite filter_cons_True
        by (unfold has_link; simpl; rewrite Hit; by apply truthy_Some).
      rewrite fmap_cons. by apply sublist_skip.
Qed.

(** X9.  The new results follow the order of the answers.  The new
    results are entries made from returned items that carry a link, in the
    order in which the items were returned, query after query; each keeps
    the query, the link, the title and the snippet of its item. *)
Theorem found_in_encounter_order queries cfg w s :
  found_results (final queries cfg w s)
    `sublist_of`
    (entry_of <$> filter (fun p => has_link p = true) (stream cfg w queries))
  /\
  forall r,
    r ∈ found_results (final queries cfg w s) ->
    exists it,
      (query r, it) ∈ stream cfg w queries /\
      item_link it = Some (link r) /\ link r <> "" /\
      title r = item_title it /\ snippet r = item_snippet it.
Proof.
  destruct (scan_found_sublist (stream cfg w queries) (start s))
    as (ext & Hext & Hsub).
  fold (final queries cfg w s) in Hext. simpl in Hext. rewrite Hext.
  split; [done|]. intros r Hr.
  pose proof (sublist_submseteq _ _ Hsub) as Hsm.
  apply (elem_of_submseteq _ _ _ Hr) in Hsm.
  apply list_elem_of_fmap in Hsm as ([q it] & -> & Hin).
  apply list_elem_of_filter in Hin as [Hhas Hin].
  unfold has_link in Hhas. simpl in Hhas.
  destruct (truthy_true _ Hhas) as (l & Hit & Hne).
  exists it. unfold entry_of, entry. simpl. rewrite Hit. simpl.
  by repeat split.
Qed.

Lemma found_in_encounter_order_witness :
  entry query1 item_job2
    ∈ found_results (final QUERIES cfg_sendgrid world_scenario (seen [job1]))
  /\
  exists it,
    (query1, it) ∈ stream cfg_sendgrid world_scenario QUERIES /\
    item_link it = Some job2 /\ job2 <> "" /\
    Some "X" = item_title it /\ Some "Y" = item_snippet it.
Proof.
  assert (entry query1 item_job2
            ∈ found_results
                (final QUERIES cfg_sendgrid world_scenario (seen [job1])))
    as H by (vm_compute; left).
  exact (conj H
    (proj2 (found_in_encounter_order QUERIES cfg_sendgrid world_scenario
              (seen [job1])) (entry query1 item_job2) H)).
Defined.

Lemma listing_length S : length (listing S) = size S.
Proof.
  unfold listing. by rewrite merge_sort_Permutation.
Qed.

(** X10.  What is written is what was stored plus what was mailed.  The
    list a run writes holds the strings of the fetched set and the links
    of the new results and nothing else, and its length is the size of
    the fetched set plus the number of new results (the number announced
    in the subject of the mail). *)
Theorem written_list_accounting queries cfg w s remote_sha new_list
    payload_sha :
  result (load_state cfg w) = inr (s, remote_sha) ->
  (new_list, payload_sha) ∈ puts (trace (run_on queries cfg w)) ->
  (forall l,
     l ∈ new_list <->
     l ∈ strs s \/ l ∈ link <$> found_results (final queries cfg w s)) /\
  length new_list
    = (size (strs s) + length (found_results (final queries cfg w s)))%nat.
Proof.
  intros Hl (s' & sha' & _ & Hl' & _ & _ & _ & -> & _)%run_on_puts.
  rewrite Hl in Hl'. injection Hl' as <- <-.
  destruct (Inv_scan _ _ (stream cfg w queries) _ (Inv_start s))
    as [Hs _ Hlk Hnd Hfr]. fold (final queries cfg w s) in Hs, Hlk, Hnd, Hfr.
  simpl in Hs. split.
  - intros l. rewrite listing_elem_of, Hs, Hlk. set_solver.
  - rewrite listing_length, Hs, size_union.
    + rewrite size_list_to_set by done. by rewrite <- Hlk, length_fmap.
    + intros l Hl1 Hl2. apply elem_of_list_to_set in Hl2.
      by destruct (Hfr l Hl2).
Qed.

Lemma written_list_accounting_witness :
  result (load_state cfg_sendgrid world_scenario)
    = inr (seen [job1], Some "v1") /\
  ([job1; job2], Some "v1") ∈ puts (trace (run cfg_sendgrid world_scenario))
  /\
  length [job1; job2]
    = (size (strs (seen [job1]))
       + length (found_results
                   (final QUERIES cfg_sendgrid world_scenario (seen [job1]))))
      %nat.
Proof.
  assert (result (load_state cfg_sendgrid world_scenario)
          = inr (seen [job1], Some "v1")) as H1 by (vm_compute; reflexivity).
  assert (([job1; job2], Some "v1")
            ∈ puts (trace (run cfg_sendgrid world_scenario))) as H2
    by (apply (bool_decide_unpack _); vm_compute; exact I).
  exact (conj H1 (conj H2
    (proj2 (written_list_accounting QUERIES cfg_sendgrid world_scenario
              (seen [job1]) (Some "v1") [job1; job2] (Some "v1") H1 H2)))).
Defined.

(** ** The two decoders of the stored file *)

(** X11.  [load_sent_links] and [run] read the file alike.  Whenever the
    fetch returns and the content, if any, is base64 of UTF-8 text,
    [load_sent_links] returns the very list that [run] takes as the
    existing links: the array when the content is a JSON array, the empty
    list otherwise. *)
Theorem load_sent_links_agrees cfg w obj :
  result (get_repo_file cfg w (FILE_PATH cfg)) = inr obj ->
  (forall f, obj = Some f -> content f <> NotText) ->
  load_sent_links cfg w = ([get_event cfg], inr (existing_links_of obj)).
Proof.
  intros Hget Htext. unfold load_sent_links.
  pose proof (get_repo_file_trace cfg w (FILE_PATH cfg)) as Ht.
  destruct (get_repo_file cfg w (FILE_PATH cfg)) as [t r].
  unfold trace, result in Hget, Ht. simpl in Hget, Ht. subst t r.
  rewrite bind_ok.
  destruct obj as [f|]; [|done]. simpl.
  specialize (Htext f eq_refl).
  by destruct (content f) as [| |[]].
Qed.

Lemma load_sent_links_agrees_witness :
  result (get_repo_file cfg_sendgrid world_scenario (FILE_PATH cfg_sendgrid))
    = inr (Some {| sha := Some "v1";
                   content := Parsed (JArr [JStr job1]) |}) /\
  load_sent_links cfg_sendgrid world_scenario
    = ([get_event cfg_sendgrid], inr [JStr job1]).
Proof.
  assert (forall f,
            Some {| sha := Some "v1"; content := Parsed (JArr [JStr job1]) |}
              = Some f -> content f <> NotText) as H
    by (intros f [= <-]; discriminate).
  exact (conj eq_refl
    (load_sent_links_agrees cfg_sendgrid world_scenario _ eq_refl H)).
Defined.

(** ** A stored array that holds something else than strings *)

Lemma trace_pair {A} (t : list Event) (r : exn + A) : trace (t, r) = t.
Proof. reflexivity. Qed.

Lemma result_pair {A} (t : list Event) (r : exn + A) : result (t, r) = r.
Proof. reflexivity. Qed.

(** X12.  Elements that are not strings.  When the stored array holds an
    array or an object, the run raises a [TypeError] right after the
    fetch, before any search.  When it holds only scalars but one of them
    is not a string (a number, a boolean, null), the run searches and
    mails the new results as usual and then raises a [TypeError] when
    sorting: nothing is written. *)
Theorem non_string_elements queries cfg w f existing :
  preflight cfg = true ->
  store_get w = Http 200 (Some f) ->
  content f = Parsed (JArr existing) ->
  (forallb hashable existing = false ->
   run_on queries cfg w = ([get_event cfg], inl TypeError)) /\
  (forall s,
     forallb hashable existing = true ->
     py_set existing = ret s ->
     (exists v, v ∈ existing /\ as_str v = None) ->
     found_results (final queries cfg w s) <> [] ->
     result (send_new cfg w (final queries cfg w s)) = inr tt ->
     result (run_on queries cfg w) = inl TypeError /\
     mails (trace (run_on queries cfg w))
       = [(mail_subject w (final queries cfg w s),
           mail_html w (final queries cfg w s))] /\
     puts (trace (run_on queries cfg w)) = []).
Proof.
  intros Hp Hw Hc.
  assert (get_repo_file cfg w (FILE_PATH cfg)
          = ([get_event cfg], inr (Some f))) as Hget
    by by apply get_repo_file_200.
  assert (existing_links_of (Some f) = existing) as Hex
    by (simpl; by rewrite Hc).
  split.
  - intros Hh. apply run_on_load_fail; [done|].
    unfold load_state. rewrite Hget, bind_ok, Hex. unfold py_set.
    by rewrite Hh.
  - intros s Hh Hs (v & Hv & Hnone) Hne Hok.
    assert (foreign s = true) as Hfo.
    { unfold py_set in Hs. rewrite Hh in Hs. injection Hs as <-. simpl.
      apply negb_true_iff, not_true_is_false. intros Hall.
      rewrite forallb_forall in Hall.
      specialize (Hall v (proj1 (list_elem_of_In _ _) Hv)).
      rewrite Hnone in Hall. done. }
    assert (result (load_state cfg w) = inr (s, sha f)) as Hl.
    { unfold load_state. rewrite Hget, bind_ok, Hex, Hs. reflexivity. }
    rewrite (run_on_loaded queries cfg w s (sha f) Hp Hl).
    rewrite (notify_sent cfg w _ (sha f) Hne Hok), final_foreign, Hfo.
    rewrite !trace_pair, !result_pair.
    change (get_event cfg :: (search_event cfg <$> queries) ++ ?t)
      with ((get_event cfg :: (search_event cfg <$> queries)) ++ t).
    destruct (fetch_and_searches_silent cfg queries) as [Hm Hpu].
    rewrite mails_app, puts_app, Hm, Hpu.
    split; [done|]. split.
    + by apply send_email_ok_mails.
    + apply send_email_puts.
Qed.

Lemma non_string_elements_witness :
  (forallb hashable [JArr []] = false /\
   run cfg_sendgrid world_array_stored
     = ([get_event cfg_sendgrid], inl TypeError)) /\
  (result (run cfg_sendgrid world_number_stored) = inl TypeError /\
   puts (trace (run cfg_sendgrid world_number_stored)) = []).
Proof.
  assert (exists v, v ∈ [JStr job1; JNum 7] /\ as_str v = None) as H3
    by (exists (JNum 7); split; [right; left|reflexivity]).
  assert (found_results
            (final QUERIES cfg_sendgrid world_number_stored
               {| strs := list_to_set [job1]; foreign := true |}) <> [])
    as H4 by (vm_compute; discriminate).
  assert (result (send_new cfg_sendgrid world_number_stored
                    (final QUERIES cfg_sendgrid world_number_stored
                       {| strs := list_to_set [job1]; foreign := true |}))
          = inr tt) as H5 by (vm_compute; reflexivity).
  destruct (proj2 (non_string_elements QUERIES cfg_sendgrid
                     world_number_stored _ [JStr job1; JNum 7]
                     eq_refl eq_refl eq_refl)
              {| strs := list_to_set [job1]; foreign := true |}
              eq_refl eq_refl H3 H4 H5) as (C1 & _ & C3).
  exact (conj
    (conj eq_refl
       (proj1 (non_string_elements QUERIES cfg_sendgrid world_array_stored
                 _ [JArr []] eq_refl eq_refl eq_refl) eq_refl))
    (conj C1 C3)).
Defined.

(** ** The body of the mail *)

Lemma append_assoc (a b c : string) : (a +:+ b) +:+ c = a +:+ b +:+ c.
Proof.
  induction a as [|x a IH]; [done|].
  change (String x ((a +:+ b) +:+ c) = String x (a +:+ b +:+ c)).
  by f_equal.
Qed.

Lemma append_nil_r (a : string) : a +:+ "" = a.
Proof.
  induction a as [|x a IH]; [done|].
  change (String x (a +:+ "") = String x a). by f_equal.
Qed.

Lemma occurs_here x post : occurs x (x +:+ post).
Proof. by exists "", post. Qed.

Lemma occurs_app_l x a s : occurs x s -> occurs x (a +:+ s).
Proof.
  intros (pre & post & ->). exists (a +:+ pre), post.
  by rewrite append_assoc.
Qed.

Lemma occurs_app_r x s b : occurs x s -> occurs x (s +:+ b).
Proof.
  intros (pre & post & ->). exists pre, (post +:+ b).
  by rewrite !append_assoc.
Qed.

Lemma occurs_trans x y s : occurs x y -> occurs y s -> occurs x s.
Proof.
  intros (p1 & q1 & ->) (p2 & q2 & ->). exists (p2 +:+ p1), (q1 +:+ q2).
  by rewrite !append_assoc.
Qed.

Lemma concat_cons (x : string) (xs : list string) :
  String.concat "" (x :: xs) = x +:+ String.concat "" xs.
Proof. destruct xs; simpl; [by rewrite append_nil_r|done]. Qed.

Lemma concat_occurs {A} (f : A -> string) (r : A) (rs : list A) :
  r ∈ rs -> occurs (f r) (String.concat "" (f <$> rs)).
Proof.
  induction rs as [|y rs IH]; intros Hin; [by apply elem_of_nil in Hin|].
  rewrite fmap_cons, concat_cons.
  apply elem_of_cons in Hin as [->|Hin]; [apply occurs_here|].
  by apply occurs_app_l, IH.
Qed.

(** X13.  No result is left out of the body.  For a list of results that
    is not empty, the HTML holds the rendering of every result, and with
    it the link, the title and the query of the result; a missing title
    is rendered as the text [None]. *)
Theorem html_holds_every_result date_str results r :
  r ∈ results ->
  occurs (render_result r) (build_email_html date_str results) /\
  occurs (link r) (build_email_html date_str results) /\
  occurs (py_str (title r)) (build_email_html date_str results) /\
  occurs (query r) (build_email_html date_str results) /\
  (title r = None ->
   occurs "<strong>None</strong>" (build_email_html date_str results)).
Proof.
  intros Hin.
  assert (occurs (render_result r) (build_email_html date_str results)) as H.
  { unfold build_email_html. destruct results as [|r0 rs] eqn:Hr;
      [by apply elem_of_nil in Hin|]. rewrite <- Hr in *.
    apply occurs_app_l, occurs_app_l, occurs_app_r.
    by apply concat_occurs. }
  split; [done|]. unfold render_result in H.
  repeat split.
  - eapply occurs_trans; [|exact H].
    do 7 apply occurs_app_l. apply occurs_here.
  - eapply occurs_trans; [|exact H]. apply occurs_app_l, occurs_here.
  - eapply occurs_trans; [|exact H].
    do 16 apply occurs_app_l. apply occurs_here.
  - intros Ht. eapply occurs_trans; [|exact H]. rewrite Ht. simpl.
    by exists "<li>",
      ("<br>" +:+ py_str (snippet r) +:+ "<br><a href=" +:+ dq +:+ link r
         +:+ dq +:+ " target=" +:+ dq +:+ "_blank" +:+ dq +:+ ">" +:+ link r
         +:+ "</a><br><small>query: " +:+ query r +:+ "</small></li><br>").
Qed.

Lemma html_holds_every_result_witness :
  entry query1 item_job2 ∈ [entry query1 item_job2] /\
  occurs job2 (build_email_html "2024-05-01" [entry query1 item_job2]).
Proof.
  assert (entry query1 item_job2 ∈ [entry query1 item_job2]) as H by left.
  exact (conj H
    (proj1 (proj2 (html_holds_every_result "2024-05-01"
                     [entry query1 item_job2] (entry query1 item_job2) H)))).
Defined.

(** X14.  The page without results is never mailed.  Given no result,
    [build_email_html] makes a page that says so, and this page differs
    from the page of any list that is not empty; every body [run] hands to
    a transport is the page of a list that is not empty. *)
Theorem no_results_page_never_mailed queries cfg w subject html :
  (subject, html) ∈ mails (trace (run_on queries cfg w)) ->
  html <> build_email_html (now_date w) [] /\
  exists r rs, html = build_email_html (now_date w) (r :: rs).
Proof.
  intros (s & sha' & _ & _ & Hne & _ & ->)%run_on_mails.
  destruct (found_results (final queries cfg w s)) as [|r rs]; [done|].
  split; [|by exists r, rs].
  unfold build_email_html. intros Heq.
  apply (inj (String.app _)) in Heq. discriminate Heq.
Qed.

Lemma no_results_page_never_mailed_witness :
  ("Daily job search — 2024-05-01 — 1 new",
   build_email_html "2024-05-01" [entry query1 item_job2])
    ∈ mails (trace (run cfg_sendgrid world_scenario)) /\
  build_email_html "2024-05-01" [entry query1 item_job2]
    <> build_email_html (now_date world_scenario) [].
Proof.
  assert (("Daily job search — 2024-05-01 — 1 new",
           build_email_html "2024-05-01" [entry query1 item_job2])
            ∈ mails (trace (run cfg_sendgrid world_scenario))) as H
    by (vm_compute; left).
  exact (conj H
    (proj1 (no_results_page_never_mailed QUERIES cfg_sendgrid world_scenario
              _ _ H))).
Defined.

(** ** Runs that end early or find nothing *)

Lemma stream_all_fail cfg w queries :
  Forall (fun q => exists e, result (google_custom_search cfg w q 1) = inl e)
    queries ->
  stream cfg w queries = [].
Proof.
  unfold stream. induction 1 as [|q queries [e He] _ IH]; [done|].
  simpl. rewrite IH. unfold items_for. by rewrite He.
Qed.

(** X15.  When every search fails.  If the search call raises for every
    query, the run still ends successfully: it has made the fetch and one
    request per query, found nothing, mailed nothing and written
    nothing. *)
Theorem all_queries_fail_is_noop queries cfg w s remote_sha :
  preflight cfg = true ->
  result (load_state cfg w) = inr (s, remote_sha) ->
  Forall (fun q => exists e, result (google_custom_search cfg w q 1) = inl e)
    queries ->
  run_on queries cfg w
    = (get_event cfg :: (search_event cfg <$> queries), inr tt).
Proof.
  intros Hp Hl Hall.
  rewrite (run_on_loaded queries cfg w s remote_sha Hp Hl).
  unfold final. rewrite (stream_all_fail cfg w queries Hall). simpl.
  by rewrite app_nil_r.
Qed.

Lemma all_queries_fail_is_noop_witness :
  preflight cfg_sendgrid = true /\
  result (load_state cfg_sendgrid world_all_fail)
    = inr (seen [job1], Some "v1") /\
  run cfg_sendgrid world_all_fail
    = (get_event cfg_sendgrid :: (search_event cfg_sendgrid <$> QUERIES),
       inr tt).
Proof.
  assert (result (load_state cfg_sendgrid world_all_fail)
          = inr (seen [job1], Some "v1")) as H2 by (vm_compute; reflexivity).
  assert (Forall (fun q => exists e,
                    result (google_custom_search cfg_sendgrid world_all_fail
                              q 1) = inl e) QUERIES) as H3.
  { constructor; [by exists ConnectionError|].
    constructor; [by exists (HTTPError 500)|]. constructor. }
  exact (conj eq_refl (conj H2
    (all_queries_fail_is_noop QUERIES cfg_sendgrid world_all_fail
       (seen [job1]) (Some "v1") eq_refl H2 H3))).
Defined.

(** X16.  A failing fetch ends the run at once.  When the request for
    the stored file gets no answer, or gets a 200 answer whose body is not
    JSON, the run raises the corresponding exception; the fetch is the
    only request it has made. *)
Theorem fetch_failure_stops_run queries cfg w :
  preflight cfg = true ->
  (store_get w = NoReply ->
   run_on queries cfg w = ([get_event cfg], inl ConnectionError)) /\
  (store_get w = Http 200 None ->
   run_on queries cfg w = ([get_event cfg], inl JSONDecodeError)).
Proof.
  intros Hp. split; intros Hw; apply run_on_load_fail; try done;
    unfold load_state, get_repo_file, request; by rewrite Hw.
Qed.

Lemma fetch_failure_stops_run_witness :
  preflight cfg_sendgrid = true /\
  store_get world_store_silent = NoReply /\
  run cfg_sendgrid world_store_silent
    = ([get_event cfg_sendgrid], inl ConnectionError).
Proof.
  exact (conj eq_refl (conj eq_refl
    (proj1 (fetch_failure_stops_run QUERIES cfg_sendgrid world_store_silent
              eq_refl) eq_refl))).
Defined.

(** X17.  The repository settings are not checked.  A run whose
    repository name and token are both unset is not rejected at startup:
    its first request is the fetch, sent without authorization to the URL
    built with the text [None] in place of the repository, and every
    request it makes to the repository goes to that URL without
    authorization. *)
Theorem repository_settings_unchecked queries cfg w :
  preflight cfg = true ->
  GITHUB_REPOSITORY cfg = None -> truthy (GITHUB_TOKEN cfg) = false ->
  (exists rest,
     trace (run_on queries cfg w)
       = GetRepo ("https://api.github.com/repos/None/contents/"
                    +:+ FILE_PATH cfg) None :: rest) /\
  Forall (fun p => p = ("https://api.github.com/repos/None/contents/"
                          +:+ FILE_PATH cfg, None))
    (repo_requests (trace (run_on queries cfg w))).
Proof.
  intros Hp Hrepo Htok.
  assert (api_url cfg (FILE_PATH cfg)
          = "https://api.github.com/repos/None/contents/" +:+ FILE_PATH cfg)
    as Hurl by (unfold api_url; by rewrite Hrepo).
  assert (headers cfg = None) as Hauth by (unfold headers; by rewrite Htok).
  assert (get_event cfg
          = GetRepo ("https://api.github.com/repos/None/contents/"
                       +:+ FILE_PATH cfg) None) as Hget
    by (unfold get_event; by rewrite Hurl, Hauth).
  destruct (result (load_state cfg w)) as [e|[s remote_sha]] eqn:Hl.
  - rewrite (run_on_load_fail queries cfg w e Hp Hl), trace_pair, Hget.
    split; [by eexists|]. by repeat constructor.
  - rewrite (run_on_loaded queries cfg w s remote_sha Hp Hl), trace_pair.
    rewrite Hget. split; [by eexists|].
    unfold repo_requests.
    change (omap repo_auth_of (GetRepo ?u ?a :: ?l))
      with ((u, a) :: omap repo_auth_of l).
    constructor; [done|]. rewrite omap_app. apply Forall_app. split.
    + clear. induction queries as [|q queries IH]; [constructor|].
      rewrite fmap_cons. exact IH.
    + fold (repo_requests (trace (notify_and_save cfg w
              (final queries cfg w s) remote_sha))).
      rewrite (proj2 (notify_no_search cfg w _ remote_sha)), Hurl, Hauth.
      apply Forall_fmap, Forall_forall. by intros.
Qed.

Lemma repository_settings_unchecked_witness :
  preflight cfg_no_github = true /\
  GITHUB_REPOSITORY cfg_no_github = None /\
  truthy (GITHUB_TOKEN cfg_no_github) = false /\
  Forall (fun p => p = ("https://api.github.com/repos/None/contents/"
                          +:+ FILE_PATH cfg_no_github, None))
    (repo_requests (trace (run cfg_no_github world_scenario))).
Proof.
  exact (conj eq_refl (conj eq_refl (conj eq_refl
    (proj2 (repository_settings_unchecked QUERIES cfg_no_github
              world_scenario eq_refl eq_refl eq_refl))))).
Defined.
